(** * FormAutomation: the forms crawler ([forms_crawler.py])

    A shallow embedding of [WebCrawler] and the properties of its
    extraction pipeline, its frontier and its crawl loop.

    Conventions.  A Python [str] is a [string] whose characters are code
    points below 256.  A Python [set] of strings is a [gset string]; a
    [dict] whose iteration order matters is an association list.  The
    collaborators the crawler only calls (the HTTP session, the HTML
    parser, the selector engine, [urljoin], the clock and the order in
    which concurrent fetches complete) are variables of a section. *)

From Stdlib Require Import Ascii String ZArith Lia Bool.
From stdpp Require Import base decidable option list strings gmap sets.

Open Scope Z_scope.
Set Warnings "-register-all,-clear-no-such-hyp".

(** ** Python's string built-ins *)

Module Py.

Definition code (c : ascii) : N := N_of_ascii c.

(** [s.startswith(p)] *)
Fixpoint startswith (s p : string) : bool :=
  match p, s with
  | EmptyString, _ => true
  | String a p', String b s' => if Ascii.eqb a b then startswith s' p' else false
  | String _ _, EmptyString => false
  end.

(** [needle in hay] on strings: [needle] occurs as a contiguous run. *)
Fixpoint contains (needle hay : string) : bool :=
  startswith hay needle ||
  match hay with
  | EmptyString => false
  | String _ hay' => contains needle hay'
  end.

(** [c in chars] for a single character. *)
Fixpoint mem_char (c : ascii) (chars : string) : bool :=
  match chars with
  | EmptyString => false
  | String d chars' => Ascii.eqb c d || mem_char c chars'
  end.

(** [str.lower()] on code points below 256. *)
Definition lower_char (c : ascii) : ascii :=
  let n := code c in
  if ((65 <=? n) && (n <=? 90))%N
     || ((192 <=? n) && (n <=? 222) && negb (n =? 215))%N
  then ascii_of_N (n + 32) else c.

Fixpoint lower (s : string) : string :=
  match s with
  | EmptyString => EmptyString
  | String c s' => String (lower_char c) (lower s')
  end.

(** [str.isspace()] on one code point below 256. *)
Definition isspace (c : ascii) : bool :=
  let n := code c in
  (((9 <=? n) && (n <=? 13)) || ((28 <=? n) && (n <=? 32))
   || (n =? 133) || (n =? 160))%N.

(** [s.lstrip(...)]: drop the leading characters satisfying [p]. *)
Fixpoint lstrip (p : ascii -> bool) (s : string) : string :=
  match s with
  | EmptyString => EmptyString
  | String c s' => if p c then lstrip p s' else s
  end.

(** [s.rstrip(...)]: drop the trailing characters satisfying [p]. *)
Fixpoint rstrip (p : ascii -> bool) (s : string) : string :=
  match s with
  | EmptyString => EmptyString
  | String c s' =>
      match rstrip p s' with
      | EmptyString => if p c then EmptyString else String c EmptyString
      | r => String c r
      end
  end.

(** [s.strip()] and [s.strip(chars)] *)
Definition strip (s : string) : string := rstrip isspace (lstrip isspace s).
Definition strip_chars (chars s : string) : string :=
  rstrip (fun c => mem_char c chars) (lstrip (fun c => mem_char c chars) s).

(** [s.replace(old, new)] for a non-empty [old]: occurrences are found
    left to right and do not overlap.  [skip] counts the characters of
    an occurrence that are still to be dropped. *)
Fixpoint replace_go (old new : string) (skip : nat) (s : string) : string :=
  match s with
  | EmptyString => EmptyString
  | String c s' =>
      match skip with
      | S k => replace_go old new k s'
      | O =>
          if startswith s old
          then new +:+ replace_go old new (String.length old - 1) s'
          else String c (replace_go old new 0 s')
      end
  end.
Definition replace (old new s : string) : string := replace_go old new 0 s.

(** [s[:n]] and [s[n:]] for [n >= 0] *)
Fixpoint str_take (n : nat) (s : string) : string :=
  match n, s with
  | S n', String c s' => String c (str_take n' s')
  | _, _ => EmptyString
  end.
Fixpoint str_drop (n : nat) (s : string) : string :=
  match n, s with
  | S n', String _ s' => str_drop n' s'
  | _, _ => s
  end.

(** [sep.join(parts)] *)
Fixpoint join (sep : string) (parts : list string) : string :=
  match parts with
  | [] => EmptyString
  | [p] => p
  | p :: rest => p +:+ sep +:+ join sep rest
  end.

(** [re.sub(r'/+', '/', s)]: every run of slashes becomes one slash. *)
Fixpoint collapse_slashes (s : string) : string :=
  match s with
  | EmptyString => EmptyString
  | String c s' =>
      if Ascii.eqb c "/" then
        match s' with
        | String d _ =>
            if Ascii.eqb d "/" then collapse_slashes s'
            else String c (collapse_slashes s')
        | EmptyString => String c EmptyString
        end
      else String c (collapse_slashes s')
  end.

(** [l[:n]] and [l[n:]] on lists, with Python's reading of a negative
    bound as counted from the end. *)
Definition slice_to {A} (n : Z) (l : list A) : list A :=
  if 0 <=? n then take (Z.to_nat n) l
  else take (length l - Z.to_nat (- n)) l.
Definition slice_from {A} (n : Z) (l : list A) : list A :=
  if 0 <=? n then drop (Z.to_nat n) l
  else drop (length l - Z.to_nat (- n)) l.

End Py.

(** ** [urllib.parse.urlparse]

    The part of the library function the crawler relies on: the scheme is
    the text before the first colon when it is made of scheme characters
    and starts with a letter; after [//] the network location runs to the
    first of [/ ? #]; the fragment, the query and the parameters of the
    last path segment are cut from the rest, which is the path.  A network
    location with an unmatched square bracket raises [ValueError]
    ([None]).  The library's further checks on bracketed hosts and on
    non-ASCII hosts are not modelled. *)

Module UrlParse.

Record ParseResult := {
  scheme : string;
  netloc : string;
  path : string;
  params : string;
  query : string;
  fragment : string
}.

Definition is_alpha (c : ascii) : bool :=
  let n := Py.code c in
  (((65 <=? n) && (n <=? 90)) || ((97 <=? n) && (n <=? 122)))%N.
Definition is_digit (c : ascii) : bool :=
  let n := Py.code c in ((48 <=? n) && (n <=? 57))%N.
Definition is_scheme_char (c : ascii) : bool :=
  is_alpha c || is_digit c || Py.mem_char c "+-.".

Fixpoint all_chars (p : ascii -> bool) (s : string) : bool :=
  match s with
  | EmptyString => true
  | String c s' => p c && all_chars p s'
  end.

(** [s.partition(c)] without the separator: the text before the first
    [c] and, when there is one, the text after it. *)
Fixpoint split_at (p : ascii -> bool) (s : string) : string * option string :=
  match s with
  | EmptyString => (EmptyString, None)
  | String c s' =>
      if p c then (EmptyString, Some s')
      else let '(a, b) := split_at p s' in (String c a, b)
  end.

(** The text before the first character satisfying [p], and the text
    from that character on. *)
Fixpoint span_until (p : ascii -> bool) (s : string) : string * string :=
  match s with
  | EmptyString => (EmptyString, EmptyString)
  | String c s' =>
      if p c then (EmptyString, s)
      else let '(a, b) := span_until p s' in (String c a, b)
  end.

Definition is_c0_or_space (c : ascii) : bool := (Py.code c <=? 32)%N.
Definition is_unsafe (c : ascii) : bool :=
  let n := Py.code c in ((n =? 9) || (n =? 10) || (n =? 13))%N.

Fixpoint remove_chars (p : ascii -> bool) (s : string) : string :=
  match s with
  | EmptyString => EmptyString
  | String c s' => if p c then remove_chars p s' else String c (remove_chars p s')
  end.

Definition split_scheme (url : string) : string * string :=
  match split_at (fun c => Ascii.eqb c ":") url with
  | (String c0 pre, Some rest) =>
      if is_alpha c0 && all_chars is_scheme_char (String c0 pre)
      then (Py.lower (String c0 pre), rest)
      else (EmptyString, url)
  | _ => (EmptyString, url)
  end.

Definition uses_params : list string :=
  [""; "ftp"; "hdl"; "prospero"; "http"; "imap"; "https"; "shttp"; "rtsp";
   "rtspu"; "sip"; "sips"; "mms"; "sftp"; "tel"].

(** [_splitparams]: the parameters follow the first [;] of the last
    path segment. *)
Fixpoint split_params (s : string) : string * string :=
  match s with
  | EmptyString => (EmptyString, EmptyString)
  | String c s' =>
      if Ascii.eqb c ";" && negb (Py.contains "/" s') then (EmptyString, s')
      else let '(a, b) := split_params s' in (String c a, b)
  end.

Definition urlparse (url0 : string) : option ParseResult :=
  let url1 := remove_chars is_unsafe (Py.lstrip is_c0_or_space url0) in
  let '(sch, url2) := split_scheme url1 in
  let '(loc, url3) :=
    if Py.startswith url2 "//" then
      span_until (fun c => Py.mem_char c "/?#") (Py.str_drop 2 url2)
    else (EmptyString, url2) in
  if xorb (Py.contains "[" loc) (Py.contains "]" loc) then None
  else
    let '(url4, frag) := split_at (fun c => Ascii.eqb c "#") url3 in
    let '(url5, qry) := split_at (fun c => Ascii.eqb c "?") url4 in
    let '(pth, prm) :=
      if bool_decide (sch ∈ uses_params) && Py.contains ";" url5
      then split_params url5 else (url5, EmptyString) in
    Some {| scheme := sch; netloc := loc; path := pth; params := prm;
            query := default EmptyString qry;
            fragment := default EmptyString frag |}.

End UrlParse.

(** ** Parsed documents

    What [BeautifulSoup(html, 'html.parser')] returns, as far as the
    crawler looks at it: a forest of tags, each with its name, its
    attribute dictionary and its child tags in document order. *)

Inductive tag : Type :=
| Tag (name : string) (attrs : list (string * string)) (children : list tag).

Definition tag_name (t : tag) : string := let 'Tag n _ _ := t in n.
Definition tag_attrs (t : tag) : list (string * string) := let 'Tag _ a _ := t in a.
Definition tag_children (t : tag) : list tag := let 'Tag _ _ cs := t in cs.

Definition soup := list tag.

(** Every tag below [t], in document order. *)
Fixpoint descendants (t : tag) : list tag :=
  let 'Tag _ _ cs := t in
  (fix go (cs : list tag) : list tag :=
     match cs with
     | [] => []
     | c :: cs' => c :: descendants c ++ go cs'
     end) cs.

Definition soup_descendants (s : soup) : list tag := descendants (Tag "[document]" [] s).

Fixpoint assoc (k : string) (d : list (string * string)) : option string :=
  match d with
  | [] => None
  | (k', v) :: d' => if String.eqb k k' then Some v else assoc k d'
  end.

(** [t.get(key, dflt)] and [t.has_attr(key)] *)
Definition get (t : tag) (key dflt : string) : string := default dflt (assoc key (tag_attrs t)).
Definition has_attr (t : tag) (key : string) : bool := bool_decide (is_Some (assoc key (tag_attrs t))).

(** [t.find_all(names)] *)
Definition find_all (names : list string) (t : tag) : list tag :=
  filter (fun d => tag_name d ∈ names) (descendants t).

(** [soup.find('meta', attrs={'name': n})] *)
Definition find_meta (s : soup) (n : string) : option tag :=
  head (filter (fun d => tag_name d = "meta" ∧ assoc "name" (tag_attrs d) = Some n)
               (soup_descendants s)).

(** [soup.find_all('a', href=True)] *)
Definition find_anchors (s : soup) : list tag :=
  filter (fun d => tag_name d = "a" ∧ is_Some (assoc "href" (tag_attrs d)))
         (soup_descendants s).

(** Truth value of a Python string. *)
Definition truthy (s : string) : bool := negb (String.eqb s "").

(** ** The crawler's records *)

Record field_data := {
  field_selector : string;
  field_type : string;
  field_required : bool
}.

Record meta_info := {
  meta_url : string;
  has_meta_keywords : bool;
  has_meta_description : bool;
  meta_keywords : string;
  meta_description : string;
  seo_issues : list string
}.

Record form_data := {
  form_url : string;
  form_id : string;
  form_selector : string;
  form_type : string;
  form_fields : list field_data;
  form_meta_info : meta_info
}.

Record form_config := {
  config_name : string;
  config_selectors : list string
}.

#[global] Instance field_data_eq_dec : EqDecision field_data.
Proof. solve_decision. Defined.
#[global] Instance meta_info_eq_dec : EqDecision meta_info.
Proof. solve_decision. Defined.
#[global] Instance form_data_eq_dec : EqDecision form_data.
Proof. solve_decision. Defined.
#[global] Instance form_config_eq_dec : EqDecision form_config.
Proof. solve_decision. Defined.

(** [self.form_configs] as [__init__] builds it, in insertion order. *)
Definition default_form_configs : list (string * form_config) :=
  [ ("/", {| config_name := "Get Free Recommendations";
             config_selectors := ["form#home-recommendations"] |});
    ("vendor-profile-page-software",
      {| config_name := "Software Profile Forms";
         config_selectors := ["form.get-pricing-form"; "form.compare-pricing-form";
                              "form.watch-demo-form"; "form.write-review-form";
                              "form.fit-check-form"] |});
    ("vendor-profile-page-services",
      {| config_name := "Services Profile Forms";
         config_selectors := ["form.get-quote-form"; "form.download-portfolio-form"] |});
    ("lead-generation-page",
      {| config_name := "Get Started Form";
         config_selectors := ["form.vendor-signup-form"] |});
    ("subcategory-page",
      {| config_name := "Subcategory Forms";
         config_selectors := ["form.pricing-guide-form"; "form.download-list-form"] |});
    ("vendor-comparison-page",
      {| config_name := "Comparison Form";
         config_selectors := ["form.comparison-form"] |});
    ("whitepaper-article-page",
      {| config_name := "Whitepaper Form";
         config_selectors := ["form.whitepaper-form"] |});
    ("register-now",
      {| config_name := "Webinar Registration";
         config_selectors := ["form.webinar-form"] |});
    ("watch-now-webinar",
      {| config_name := "Watch Webinar";
         config_selectors := ["form.watch-webinar-form"] |});
    ("category-page",
      {| config_name := "Category Page Forms";
         config_selectors := ["form.advice-form"; "form.help-form"] |});
    ("get-free-advice",
      {| config_name := "Advice Forms";
         config_selectors := ["form.deciding-help-form"; "form.software-search-form"] |});
    ("contact-us",
      {| config_name := "Contact Form";
         config_selectors := ["form.contact-form"] |}) ].

(** The instance state of [WebCrawler].  [start_time] is left to the
    clock.  The last three fields are history variables, not program
    state: the URLs for which a request was issued, every form record
    built, and every URL put on the queue, each in order of occurrence. *)
Record WebCrawler := {
  base_url : string;
  visited : gset string;
  queue : list string;
  forms_found : list form_data;
  batch_size : Z;
  max_pages : Z;
  timeout_minutes : Z;
  all_urls : gset string;
  form_configs : list (string * form_config);
  fetched : list string;
  produced : list form_data;
  enqueued : list string
}.

Definition set_visited (v : gset string) (c : WebCrawler) : WebCrawler :=
  {| base_url := base_url c; visited := v; queue := queue c;
     forms_found := forms_found c; batch_size := batch_size c;
     max_pages := max_pages c; timeout_minutes := timeout_minutes c;
     all_urls := all_urls c; form_configs := form_configs c;
     fetched := fetched c; produced := produced c; enqueued := enqueued c |}.
Definition set_queue (q : list string) (c : WebCrawler) : WebCrawler :=
  {| base_url := base_url c; visited := visited c; queue := q;
     forms_found := forms_found c; batch_size := batch_size c;
     max_pages := max_pages c; timeout_minutes := timeout_minutes c;
     all_urls := all_urls c; form_configs := form_configs c;
     fetched := fetched c; produced := produced c; enqueued := enqueued c |}.
Definition set_forms_found (f : list form_data) (c : WebCrawler) : WebCrawler :=
  {| base_url := base_url c; visited := visited c; queue := queue c;
     forms_found := f; batch_size := batch_size c;
     max_pages := max_pages c; timeout_minutes := timeout_minutes c;
     all_urls := all_urls c; form_configs := form_configs c;
     fetched := fetched c; produced := produced c; enqueued := enqueued c |}.
Definition set_all_urls (a : gset string) (c : WebCrawler) : WebCrawler :=
  {| base_url := base_url c; visited := visited c; queue := queue c;
     forms_found := forms_found c; batch_size := batch_size c;
     max_pages := max_pages c; timeout_minutes := timeout_minutes c;
     all_urls := a; form_configs := form_configs c;
     fetched := fetched c; produced := produced c; enqueued := enqueued c |}.
Definition set_fetched (l : list string) (c : WebCrawler) : WebCrawler :=
  {| base_url := base_url c; visited := visited c; queue := queue c;
     forms_found := forms_found c; batch_size := batch_size c;
     max_pages := max_pages c; timeout_minutes := timeout_minutes c;
     all_urls := all_urls c; form_configs := form_configs c;
     fetched := l; produced := produced c; enqueued := enqueued c |}.
Definition set_produced (l : list form_data) (c : WebCrawler) : WebCrawler :=
  {| base_url := base_url c; visited := visited c; queue := queue c;
     forms_found := forms_found c; batch_size := batch_size c;
     max_pages := max_pages c; timeout_minutes := timeout_minutes c;
     all_urls := all_urls c; form_configs := form_configs c;
     fetched := fetched c; produced := l; enqueued := enqueued c |}.
Definition set_enqueued (l : list string) (c : WebCrawler) : WebCrawler :=
  {| base_url := base_url c; visited := visited c; queue := queue c;
     forms_found := forms_found c; batch_size := batch_size c;
     max_pages := max_pages c; timeout_minutes := timeout_minutes c;
     all_urls := all_urls c; form_configs := form_configs c;
     fetched := fetched c; produced := produced c; enqueued := l |}.

(** ** URL normalisation and the crawl filter *)

(** [_normalize_url]; [None] when [urlparse] raises. *)
Definition _normalize_url (url : string) : option string :=
  parsed ← UrlParse.urlparse url;
  let clean_path :=
    Py.collapse_slashes (Py.rstrip (fun c => Ascii.eqb c "/") (UrlParse.path parsed)) in
  Some (UrlParse.scheme parsed +:+ "://" +:+ Py.lower (UrlParse.netloc parsed) +:+ clean_path).

Definition skipped_extensions : list string :=
  [".jpg"; ".jpeg"; ".png"; ".gif"; ".pdf"; ".zip"; ".css"; ".js";
   ".ico"; ".xml"; ".txt"; ".doc"; ".docx"; ".xls"; ".xlsx"].
Definition skipped_patterns : list string :=
  ["/feed/"; "/rss/"; "/atom/"; "/api/"; "/print/"; "/trackback/";
   "offset="; "limit="; "start="].

(** [_should_crawl_url]; [None] when [urlparse] raises. *)
Definition _should_crawl_url (c : WebCrawler) (url : string) : option bool :=
  parsed ← UrlParse.urlparse url;
  let path := Py.lower (UrlParse.path parsed) in
  if existsb (fun ext => Py.contains ext path) skipped_extensions then Some false
  else if existsb (fun pattern => Py.contains pattern path) skipped_patterns then Some false
  else if existsb (fun form_path => Py.contains form_path path) (form_configs c).*1
  then Some true
  else Some true.

(** [__init__]; [None] when normalising the base URL raises. *)
Definition __init__ (base : string) (batch maxp timeout : Z) : option WebCrawler :=
  b ← _normalize_url base;
  Some {| base_url := b; visited := ∅; queue := []; forms_found := [];
          batch_size := batch; max_pages := maxp; timeout_minutes := timeout;
          all_urls := ∅; form_configs := default_form_configs;
          fetched := []; produced := []; enqueued := [] |}.

(** ** Meta tags *)

Definition with_description (content : string) (m : meta_info) : meta_info :=
  {| meta_url := meta_url m; has_meta_keywords := has_meta_keywords m;
     has_meta_description := true; meta_keywords := meta_keywords m;
     meta_description := content; seo_issues := seo_issues m |}.
Definition with_keywords (content : string) (m : meta_info) : meta_info :=
  {| meta_url := meta_url m; has_meta_keywords := true;
     has_meta_description := has_meta_description m; meta_keywords := content;
     meta_description := meta_description m; seo_issues := seo_issues m |}.
Definition with_issue (issue : string) (m : meta_info) : meta_info :=
  {| meta_url := meta_url m; has_meta_keywords := has_meta_keywords m;
     has_meta_description := has_meta_description m; meta_keywords := meta_keywords m;
     meta_description := meta_description m; seo_issues := seo_issues m ++ [issue] |}.

(** [_extract_meta_info] *)
Definition _extract_meta_info (s : soup) (url : string) : meta_info :=
  let meta_info0 :=
    {| meta_url := url; has_meta_keywords := false; has_meta_description := false;
       meta_keywords := ""; meta_description := ""; seo_issues := [] |} in
  let meta_info1 :=
    match find_meta s "description" with
    | Some meta_desc =>
        let content := Py.strip (get meta_desc "content" "") in
        if truthy content then with_description content meta_info0
        else with_issue "Empty meta description" meta_info0
    | None => with_issue "Missing meta description" meta_info0
    end in
  match find_meta s "keywords" with
  | Some meta_kw =>
      let content := Py.strip (get meta_kw "content" "") in
      if truthy content then with_keywords content meta_info1
      else with_issue "Empty meta keywords" meta_info1
  | None => with_issue "Missing meta keywords" meta_info1
  end.

(** ** Forms *)

(** The body of the loop over the fields of a matched form: the record
    of one field, unless its type is [hidden] or [submit]. *)
Definition field_record (field : tag) : option field_data :=
  let ftype := if String.eqb (tag_name field) "input"
               then get field "type" "text" else tag_name field in
  let field_name := get field "name" "" in
  let required := has_attr field "required" || has_attr field "data-required" in
  if bool_decide (ftype ∉ ["hidden"; "submit"]) then
    Some {| field_selector := tag_name field +:+ "[name='" +:+ field_name +:+ "']";
            field_type := ftype;
            field_required := required |}
  else None.

Definition collect_fields (form : tag) : list field_data :=
  omap field_record (find_all ["input"; "textarea"; "select"] form).

(** [form.get('id', '') or selector.replace('form', '').strip('.#')] *)
Definition compute_form_id (form : tag) (selector : string) : string :=
  let id := get form "id" "" in
  if truthy id then id else Py.strip_chars ".#" (Py.replace "form" "" selector).

Definition make_form_data (url : string) (form : tag) (selector : string)
    (config : form_config) (fields : list field_data) (meta : meta_info) : form_data :=
  {| form_url := url;
     form_id := compute_form_id form selector;
     form_selector := selector;
     form_type := config_name config;
     form_fields := fields;
     form_meta_info := meta |}.

(** The test that guards a catalog entry in both extraction paths:
    [path in url or path == '/']. *)
Definition entry_applies (path url : string) : bool :=
  Py.contains path url || String.eqb path "/".

(** What awaiting [session.get(url, ...)] and then [response.text()]
    gives. *)
Inductive fetch_outcome : Type :=
| RequestFailed                                  (* the request raises: connection error, timeout *)
| Response (status : Z) (text : option string).  (* [text] is [None] when reading the body raises *)

(** How a [try] block ends. *)
Inductive outcome (A : Type) : Type :=
| Returned (a : A)
| Raised.
Arguments Returned {A} a.
Arguments Raised {A}.

(** How the crawl loop ends. *)
Inductive terminal : Type := Completed | PageLimitReached | TimedOut.

Section Crawler.

(** The collaborators. *)
Variable BeautifulSoup : string -> option soup.        (* [None]: the parser raises *)
Variable select_one : soup -> string -> option tag.
Variable urljoin : string -> string -> option string.  (* [None]: [urljoin] raises *)
Variable fetch : string -> fetch_outcome.
(** Microseconds since [start_time] at the [n]-th evaluation of the
    loop condition. *)
Variable elapsed : nat -> Z.
(** For the [n]-th batch, which of the still pending requests completes
    next, each number taken modulo the number of pending requests. *)
Variable completion : nat -> list nat.

(** *** [_extract_form_info] *)

Definition form_for_selector (url : string) (s : soup) (meta : meta_info)
    (config : form_config) (selector : string) : option form_data :=
  match select_one s selector with
  | Some form =>
      let fields := collect_fields form in
      match fields with
      | [] => None
      | _ :: _ => Some (make_form_data url form selector config fields meta)
      end
  | None => None
  end.

Definition forms_for_config (url : string) (s : soup) (meta : meta_info)
    (entry : string * form_config) : list form_data :=
  let '(path, config) := entry in
  if entry_applies path url
  then omap (form_for_selector url s meta config) (config_selectors config)
  else [].

Definition _extract_form_info (c : WebCrawler) (url html : string) : list form_data :=
  match BeautifulSoup html with
  | Some s =>
      let meta := _extract_meta_info s url in
      flat_map (forms_for_config url s meta) (form_configs c)
  | None => []
  end.

(** *** [_process_url] *)

(** One turn of the loop over the selectors of an entry.  The state is
    the crawler and the local list [forms]. *)
Definition try_selector (url : string) (s : soup) (meta : meta_info)
    (config : form_config) (st : WebCrawler * list form_data) (selector : string)
    : WebCrawler * list form_data :=
  let '(c, forms) := st in
  match select_one s selector with
  | Some form =>
      let fields := collect_fields form in
      if bool_decide (fields ≠ []) then
        let fd := make_form_data url form selector config fields meta in
        let c1 := set_produced (produced c ++ [fd]) c in
        let c2 := if bool_decide (fd ∉ forms_found c1)
                  then set_forms_found (forms_found c1 ++ [fd]) c1 else c1 in
        (c2, forms ++ [fd])
      else st
  | None => st
  end.

(** One turn of the loop over [self.form_configs.items()]. *)
Definition try_config (url : string) (s : soup) (meta : meta_info)
    (st : WebCrawler * list form_data) (entry : string * form_config)
    : WebCrawler * list form_data :=
  let '(path, config) := entry in
  if entry_applies path url
  then fold_left (try_selector url s meta config) (config_selectors config) st
  else st.

Definition extract_inline (url : string) (s : soup) (meta : meta_info)
    (c : WebCrawler) : WebCrawler * list form_data :=
  fold_left (try_config url s meta) (form_configs c) (c, []).

(** The test of the comment "Prioritize form-related URLs". *)
Definition is_form_related (c : WebCrawler) (normalized_url : string) : bool :=
  existsb (fun form_path => Py.contains form_path (Py.lower normalized_url))
          (form_configs c).*1.

(** One turn of the loop over the anchors.  The state is the crawler
    and the local list [new_urls]; an exception inside the [try] leaves
    both as they are. *)
Definition consider_link (url : string) (st : WebCrawler * list string) (link : tag)
    : WebCrawler * list string :=
  let '(c, new_urls) := st in
  let href := get link "href" "" in
  if negb (truthy href) || Py.startswith href "#" || Py.startswith href "mailto:"
  then st
  else
    match urljoin url href with
    | None => st
    | Some full_url =>
        match _normalize_url full_url with
        | None => st
        | Some normalized_url =>
            if negb (Py.startswith normalized_url (base_url c)) then st
            else
              match _should_crawl_url c full_url with
              | None => st
              | Some crawlable =>
                  if crawlable && bool_decide (normalized_url ∉ all_urls c) then
                    let new_urls' :=
                      if is_form_related c normalized_url
                      then normalized_url :: new_urls
                      else new_urls ++ [normalized_url] in
                    (set_all_urls ({[normalized_url]} ∪ all_urls c) c, new_urls')
                  else st
              end
        end
    end.

(** The body of the outer [try], with a selector engine that returns
    on every selector; [Exn.process_url_body] below is the body with an
    engine that can raise. *)
Definition process_url_body (c : WebCrawler) (url : string)
    : WebCrawler * outcome (list form_data * list string) :=
  let c0 := set_fetched (fetched c ++ [url]) c in
  match fetch url with
  | RequestFailed => (c0, Raised)
  | Response status text =>
      if negb (status =? 200) then (c0, Returned ([], []))
      else
        match text with
        | None => (c0, Raised)
        | Some html =>
            match BeautifulSoup html with
            | None => (c0, Raised)
            | Some s =>
                let meta := _extract_meta_info s url in
                let '(c1, forms) := extract_inline url s meta c0 in
                let '(c2, new_urls) :=
                  fold_left (consider_link url) (find_anchors s) (c1, []) in
                (c2, Returned (forms, new_urls))
            end
        end
  end.

(** [_process_url]: the crawler after the call and the list returned. *)
Definition _process_url (c : WebCrawler) (url : string) : WebCrawler * list string :=
  let '(c', r) := process_url_body c url in
  (c', match r with Returned (_, new_urls) => new_urls | Raised => [] end).

(** The local list [forms] of [_process_url] when its body ends. *)
Definition process_url_forms (c : WebCrawler) (url : string) : list form_data :=
  match (process_url_body c url).2 with
  | Returned (forms, _) => forms
  | Raised => []
  end.

(** Lines 223 to 265 of [_process_url] on their own: the local list
    [forms] built from a page body. *)
Definition inline_forms (c : WebCrawler) (url html : string) : list form_data :=
  match BeautifulSoup html with
  | Some s => (extract_inline url s (_extract_meta_info s url) c).2
  | None => []
  end.

(** *** [crawl] *)

(** The order in which pending tasks run their part after the fetch:
    at each step one of the pending tasks, picked by the next choice. *)
Fixpoint resume_order {A} (n : nat) (choices : list nat) (pending : list A) : list A :=
  match n with
  | O => []
  | S n' =>
      let k := (hd 0 choices mod length pending)%nat in
      match pending !! k with
      | Some t => t :: resume_order n' (tl choices) (delete k pending)
      | None => []
      end
  end.

(** One task runs from its response to its end; its result is kept
    with its position in the batch. *)
Definition run_task (st : WebCrawler * list (nat * list string)) (task : nat * string)
    : WebCrawler * list (nat * list string) :=
  let '(c, finished) := st in
  let '(c', new_urls) := _process_url c task.2 in
  (c', finished ++ [(task.1, new_urls)]).

(** The result of the task at position [i]. *)
Fixpoint result_of (i : nat) (finished : list (nat * list string)) : list string :=
  match finished with
  | [] => []
  | (j, r) :: rest => if bool_decide (i = j) then r else result_of i rest
  end.

(** [await asyncio.gather] over the tasks of a batch: the tasks run to
    their end one after the other in completion order, since no task
    awaits between reading its response and returning; the results come
    back in the order of the batch. *)
Definition gather (n : nat) (c : WebCrawler) (current_batch : list string)
    : WebCrawler * list (list string) :=
  let tasks := zip (seq 0 (length current_batch)) current_batch in
  let '(c', finished) :=
    fold_left run_task (resume_order (length tasks) (completion n) tasks) (c, []) in
  (c', map (fun i => result_of i finished) (seq 0 (length current_batch))).

(** One turn of the loop "Add new URLs to queue". *)
Definition add_new_urls (c : WebCrawler) (new_urls : list string) : WebCrawler :=
  let fresh := filter (fun url => url ∉ visited c) new_urls in
  set_enqueued (enqueued c ++ fresh)
    (set_visited (visited c ∪ list_to_set fresh)
       (set_queue (queue c ++ fresh) c)).

(** [_should_stop_crawling]: [Some] for [True], with the reason the
    method logs. *)
Definition _should_stop_crawling (n : nat) (c : WebCrawler) : option terminal :=
  if max_pages c <=? Z.of_nat (size (visited c)) then Some PageLimitReached
  else if timeout_minutes c * 60000000 <=? elapsed n then Some TimedOut
  else None.

(** The body of the [while] loop. *)
Definition crawl_iteration (n : nat) (c : WebCrawler) : WebCrawler :=
  let current_batch := Py.slice_to (batch_size c) (queue c) in
  let c1 := set_queue (Py.slice_from (batch_size c) (queue c)) c in
  let '(c2, results) := gather n c1 current_batch in
  fold_left add_new_urls results c2.

(** The [while] loop, from its [n]-th evaluation of the condition on;
    [None] when [fuel] turns do not reach the end. *)
Fixpoint crawl_loop (fuel : nat) (n : nat) (c : WebCrawler)
    : option (terminal * WebCrawler) :=
  match fuel with
  | O => None
  | S fuel' =>
      match queue c with
      | [] => Some (Completed, c)
      | _ :: _ =>
          match _should_stop_crawling n c with
          | Some reason => Some (reason, c)
          | None => crawl_loop fuel' (S n) (crawl_iteration n c)
          end
      end
  end.

(** The state [crawl] sets up before the loop. *)
Definition crawl_start (c : WebCrawler) : WebCrawler :=
  set_enqueued [base_url c]
    (set_all_urls ({[base_url c]} ∪ all_urls c)
       (set_visited ({[base_url c]} ∪ visited c)
          (set_queue [base_url c] c))).

(** [crawl], up to its last statement, which writes the report of the
    crawler returned here ([save_forms_to_csv] below). *)
Definition crawl (fuel : nat) (c : WebCrawler) : option (terminal * WebCrawler) :=
  crawl_loop fuel 0 (crawl_start c).

End Crawler.

(** ** [_process_url] and [crawl] when the selector engine can raise

    [soup.select_one] raises on a selector it cannot parse.  The
    definitions above take the engine as a function that returns, which
    it does on the selectors of the catalog of [__init__].  Here the
    engine may raise: the exception leaves the loops over the catalog
    and reaches the handler of [_process_url], after the records built
    so far were added to [forms_found]. *)

Module Exn.

Section Crawler.

Variable BeautifulSoup : string -> option soup.
Variable select_one : soup -> string -> outcome (option tag).  (* [Raised]: the engine raises *)
Variable urljoin : string -> string -> option string.
Variable fetch : string -> fetch_outcome.
Variable elapsed : nat -> Z.
Variable completion : nat -> list nat.

(** One turn of the loop over the selectors of an entry.  The state is
    the crawler and the local list [forms], or [Raised] once the engine
    has raised. *)
Definition try_selector (url : string) (s : soup) (meta : meta_info)
    (config : form_config) (st : WebCrawler * outcome (list form_data)) (selector : string)
    : WebCrawler * outcome (list form_data) :=
  match st with
  | (c, Returned forms) =>
      match select_one s selector with
      | Returned (Some form) =>
          let fields := collect_fields form in
          if bool_decide (fields ≠ []) then
            let fd := make_form_data url form selector config fields meta in
            let c1 := set_produced (produced c ++ [fd]) c in
            let c2 := if bool_decide (fd ∉ forms_found c1)
                      then set_forms_found (forms_found c1 ++ [fd]) c1 else c1 in
            (c2, Returned (forms ++ [fd]))
          else st
      | Returned None => st
      | Raised => (c, Raised)
      end
  | (_, Raised) => st
  end.

(** One turn of the loop over [self.form_configs.items()]. *)
Definition try_config (url : string) (s : soup) (meta : meta_info)
    (st : WebCrawler * outcome (list form_data)) (entry : string * form_config)
    : WebCrawler * outcome (list form_data) :=
  let '(path, config) := entry in
  if entry_applies path url
  then fold_left (try_selector url s meta config) (config_selectors config) st
  else st.

Definition extract_inline (url : string) (s : soup) (meta : meta_info)
    (c : WebCrawler) : WebCrawler * outcome (list form_data) :=
  fold_left (try_config url s meta) (form_configs c) (c, Returned []).

(** The body of the outer [try]. *)
Definition process_url_body (c : WebCrawler) (url : string)
    : WebCrawler * outcome (list form_data * list string) :=
  let c0 := set_fetched (fetched c ++ [url]) c in
  match fetch url with
  | RequestFailed => (c0, Raised)
  | Response status text =>
      if negb (status =? 200) then (c0, Returned ([], []))
      else
        match text with
        | None => (c0, Raised)
        | Some html =>
            match BeautifulSoup html with
            | None => (c0, Raised)
            | Some s =>
                let meta := _extract_meta_info s url in
                match extract_inline url s meta c0 with
                | (c1, Raised) => (c1, Raised)
                | (c1, Returned forms) =>
                    let '(c2, new_urls) :=
                      fold_left (consider_link urljoin url) (find_anchors s) (c1, []) in
                    (c2, Returned (forms, new_urls))
                end
            end
        end
  end.

(** [_process_url]: the handler of the outer [try] returns the empty
    list. *)
Definition _process_url (c : WebCrawler) (url : string) : WebCrawler * list string :=
  let '(c', r) := process_url_body c url in
  (c', match r with Returned (_, new_urls) => new_urls | Raised => [] end).

Definition run_task (st : WebCrawler * list (nat * list string)) (task : nat * string)
    : WebCrawler * list (nat * list string) :=
  let '(c, finished) := st in
  let '(c', new_urls) := _process_url c task.2 in
  (c', finished ++ [(task.1, new_urls)]).

Definition gather (n : nat) (c : WebCrawler) (current_batch : list string)
    : WebCrawler * list (list string) :=
  let tasks := zip (seq 0 (length current_batch)) current_batch in
  let '(c', finished) :=
    fold_left run_task (resume_order (length tasks) (completion n) tasks) (c, []) in
  (c', map (fun i => result_of i finished) (seq 0 (length current_batch))).

Definition crawl_iteration (n : nat) (c : WebCrawler) : WebCrawler :=
  let current_batch := Py.slice_to (batch_size c) (queue c) in
  let c1 := set_queue (Py.slice_from (batch_size c) (queue c)) c in
  let '(c2, results) := gather n c1 current_batch in
  fold_left add_new_urls results c2.

Fixpoint crawl_loop (fuel : nat) (n : nat) (c : WebCrawler)
    : option (terminal * WebCrawler) :=
  match fuel with
  | O => None
  | S fuel' =>
      match queue c with
      | [] => Some (Completed, c)
      | _ :: _ =>
          match _should_stop_crawling elapsed n c with
          | Some reason => Some (reason, c)
          | None => crawl_loop fuel' (S n) (crawl_iteration n c)
          end
      end
  end.

Definition crawl (fuel : nat) (c : WebCrawler) : option (terminal * WebCrawler) :=
  crawl_loop fuel 0 (crawl_start c).

End Crawler.

End Exn.

(** ** [save_forms_to_csv] *)

Definition py_bool (b : bool) : string := if b then "True" else "False".

Definition csv_header : list string :=
  ["Form ID"; "URL"; "Form Selector"; "Success Message Selector"; "Fields";
   "Form Type"; "Has Meta Description"; "Meta Description";
   "Has Meta Keywords"; "Meta Keywords"; "SEO Issues"].

Definition field_cell (f : field_data) : string :=
  field_selector f +:+ "|" +:+ field_type f +:+ "|"
  +:+ (if field_required f then "required" else "optional").

Definition csv_row (form : form_data) : list string :=
  let meta := form_meta_info form in
  [ form_id form; form_url form; form_selector form; ".success-message";
    Py.join ";" (map field_cell (form_fields form));
    form_type form;
    py_bool (has_meta_description meta);
    Py.str_take 200 (meta_description meta);
    py_bool (has_meta_keywords meta);
    Py.str_take 200 (meta_keywords meta);
    Py.join "; " (seo_issues meta) ].

(** The rows written, header first; [None] when nothing is written. *)
Definition save_forms_to_csv (c : WebCrawler) : option (list (list string)) :=
  match forms_found c with
  | [] => None
  | _ :: _ => Some (csv_header :: map csv_row (forms_found c))
  end.

(** ** A concrete site for the examples

    A selector engine for the two shapes of selector in the catalog
    ([name#id] and [name.class]), [urljoin] on absolute links, and pages
    given by tables. *)

Module Demo.

Definition matches_simple (selector : string) (t : tag) : bool :=
  match UrlParse.split_at (fun c => Ascii.eqb c "#") selector with
  | (name, Some id) =>
      String.eqb (tag_name t) name && bool_decide (assoc "id" (tag_attrs t) = Some id)
  | (_, None) =>
      match UrlParse.split_at (fun c => Ascii.eqb c ".") selector with
      | (name, Some cls) =>
          String.eqb (tag_name t) name
          && bool_decide (cls ∈ String.words (get t "class" ""))
      | (name, None) => String.eqb (tag_name t) name
      end
  end.

Definition select_one (s : soup) (selector : string) : option tag :=
  head (filter (fun t => matches_simple selector t = true) (soup_descendants s)).

(** [urljoin(url, href)] when [href] is an absolute URL with a network
    location. *)
Definition urljoin (url href : string) : option string := Some href.

Fixpoint lookup {A} (k : string) (table : list (string * A)) : option A :=
  match table with
  | [] => None
  | (k', v) :: rest => if String.eqb k k' then Some v else lookup k rest
  end.

(** A server that answers 200 for the URLs of [pages] and 404 for the
    others, and a parser that knows the bodies of [docs]. *)
Definition fetch (pages : list (string * string)) (url : string) : fetch_outcome :=
  match lookup url pages with
  | Some html => Response 200 (Some html)
  | None => Response 404 (Some "")
  end.
Definition parse (docs : list (string * soup)) (html : string) : option soup :=
  lookup html docs.

Definition a (href : string) : tag := Tag "a" [("href", href)] [].
Definition body (cs : list tag) : soup := [Tag "html" [] [Tag "body" [] cs]].

Definition email_form (id : string) : tag :=
  Tag "form" [("id", id)]
    [Tag "input" [("type", "text"); ("name", "email"); ("required", "")] [];
     Tag "input" [("type", "submit")] []].

Definition crawler (base : string) (batch maxp : Z) : WebCrawler :=
  default
    {| base_url := ""; visited := ∅; queue := []; forms_found := [];
       batch_size := batch; max_pages := maxp; timeout_minutes := 30;
       all_urls := ∅; form_configs := default_form_configs;
       fetched := []; produced := []; enqueued := [] |}
    (__init__ base batch maxp 30).

(** A site of three pages.  The root page has the recommendations
    form and links to the two other pages, to one of them in two
    spellings, and to another site. *)
Definition contact_form : tag :=
  Tag "form" [("class", "wide contact-form")] [Tag "textarea" [("name", "message")] []].

Definition pages : list (string * string) :=
  [("http://site.test", "<root>"); ("http://site.test/about", "<about>");
   ("http://site.test/contact-us", "<contact>")].
Definition docs : list (string * soup) :=
  [("<root>", body [email_form "home-recommendations";
                    a "http://site.test/about"; a "http://site.test/contact-us/";
                    a "http://SITE.test//contact-us"; a "http://other.test/x"]);
   ("<about>", body [email_form "home-recommendations"; a "http://site.test/"]);
   ("<contact>", body [contact_form])].

(** The crawl of that site, with all but the completion order fixed. *)
Definition run (completion : nat -> list nat) (fuel : nat) (batch maxp : Z)
    : option (terminal * WebCrawler) :=
  crawl (parse docs) select_one urljoin (fetch pages) (fun _ => 0) completion fuel
        (crawler "http://Site.test/" batch maxp).

(** Requests complete in the order of the batch, or the second request
    of every batch completes first. *)
Definition in_order : nat -> list nat := fun _ => [].
Definition second_first : nat -> list nat := fun _ => [1%nat].

(** A site whose root links to a URL with an empty path on another
    port and to a blog page, which links to the contact page. *)
Definition pages_ports : list (string * string) :=
  [("http://site.test", "<root>"); ("http://site.test/blog", "<blog>")].
Definition docs_ports : list (string * soup) :=
  [("<root>", body [a "http://site.test:8080"; a "http://site.test/blog"]);
   ("<blog>", body [a "http://site.test/contact-us"])].

Definition turn_ports (n : nat) (c : WebCrawler) : WebCrawler :=
  crawl_iteration (parse docs_ports) select_one urljoin (fetch pages_ports) in_order n c.

(** The crawler of that site, one page per batch, after the first turn
    of the loop. *)
Definition after_first_turn : WebCrawler :=
  turn_ports 0 (crawl_start (crawler "http://site.test" 1 500)).

(** The record of the form of the root page and the record of the
    form of the contact page. *)
Definition no_meta (url : string) : meta_info :=
  {| meta_url := url; has_meta_keywords := false; has_meta_description := false;
     meta_keywords := ""; meta_description := "";
     seo_issues := ["Missing meta description"; "Missing meta keywords"] |}.
Definition root_record : form_data :=
  {| form_url := "http://site.test"; form_id := "home-recommendations";
     form_selector := "form#home-recommendations";
     form_type := "Get Free Recommendations";
     form_fields := [ {| field_selector := "input[name='email']";
                         field_type := "text"; field_required := true |} ];
     form_meta_info := no_meta "http://site.test" |}.
Definition contact_record : form_data :=
  {| form_url := "http://site.test/contact-us"; form_id := "contact-";
     form_selector := "form.contact-form"; form_type := "Contact Form";
     form_fields := [ {| field_selector := "textarea[name='message']";
                         field_type := "textarea"; field_required := false |} ];
     form_meta_info := no_meta "http://site.test/contact-us" |}.

Definition root_soup : soup := default [] (parse docs "<root>").
Definition contact_soup : soup := default [] (parse docs "<contact>").

(** A selector engine that raises on a selector it cannot parse, one
    with a bracket that is not closed, as [select_one] does with a
    [SelectorSyntaxError]. *)
Definition malformed (selector : string) : bool :=
  Py.contains "[" selector && negb (Py.contains "]" selector).
Definition select_one_strict (s : soup) (selector : string) : outcome (option tag) :=
  if malformed selector then Raised else Returned (select_one s selector).

(** A crawler whose catalog was replaced, after its construction, by
    one entry with a selector that is well formed and one that is not,
    and a site whose root page has a sign-up form and a link. *)
Definition signup_catalog : list (string * form_config) :=
  [("/", {| config_name := "Sign-up";
            config_selectors := ["form#signup"; "form["; "form"] |})].
Definition signup_crawler : WebCrawler :=
  let c := crawler "http://site.test" 5 500 in
  {| base_url := base_url c; visited := visited c; queue := queue c;
     forms_found := forms_found c; batch_size := batch_size c;
     max_pages := max_pages c; timeout_minutes := timeout_minutes c;
     all_urls := all_urls c; form_configs := signup_catalog;
     fetched := fetched c; produced := produced c; enqueued := enqueued c |}.
Definition pages_signup : list (string * string) := [("http://site.test", "<signup>")].
Definition docs_signup : list (string * soup) :=
  [("<signup>", body [email_form "signup"; a "http://site.test/about"])].
Definition signup_soup : soup := default [] (parse docs_signup "<signup>").
Definition signup_record : form_data :=
  {| form_url := "http://site.test"; form_id := "signup";
     form_selector := "form#signup"; form_type := "Sign-up";
     form_fields := [ {| field_selector := "input[name='email']";
                         field_type := "text"; field_required := true |} ];
     form_meta_info := no_meta "http://site.test" |}.

(** The crawler at the end of a run that ends. *)
Definition final (r : option (terminal * WebCrawler)) : WebCrawler :=
  default (crawler "" 0 0) (snd <$> r).

End Demo.

(** ** Notions used to state the properties *)

(** Appending a record unless an equal one is there: the [if form_data
    not in self.forms_found] step. *)
Definition append_new (acc : list form_data) (fd : form_data) : list form_data :=
  if bool_decide (fd ∉ acc) then acc ++ [fd] else acc.

(** The first occurrence of each record of [l], in the order of [l]. *)
Definition first_occurrences (l : list form_data) : list form_data :=
  fold_left append_new l [].

(** The effect on the crawler of building the records [new] one after
    the other. *)
Definition record_forms (new : list form_data) (c : WebCrawler) : WebCrawler :=
  set_forms_found (fold_left append_new new (forms_found c))
    (set_produced (produced c ++ new) c).

(** The path component of a URL. *)
Definition url_path (url : string) : string :=
  default "" (UrlParse.path <$> UrlParse.urlparse url).

(** A type of field that the extraction leaves out. *)
Definition excluded_type (t : string) : Prop := t = "hidden" ∨ t = "submit".

(** A form all of whose controls are inputs of type [hidden] or
    [submit]. *)
Definition only_hidden_or_submit (form : tag) : Prop :=
  ∀ t, t ∈ find_all ["input"; "textarea"; "select"] form →
       tag_name t = "input" ∧ excluded_type (get t "type" "text").

(** The fallback identifier in the words of the specification: the
    selector with the literal word [form] removed and any leading [.] or
    [#] stripped. *)
Definition spec_form_id (selector : string) : string :=
  Py.lstrip (fun c => Py.mem_char c ".#") (Py.replace "form" "" selector).

(** The rule of the specification for applying a catalog entry on the
    page at [url] of a crawl rooted at [base]: the fragment is contained
    in the path of the URL, or it is the root sentinel and the URL is
    the crawl root.  So the sentinel entry is applied to no other page,
    and a fragment outside the path does not count. *)
Definition spec_entry_rule (base url : string) : Prop :=
  ∀ path, entry_applies path url = true ↔
          (path ≠ "/" ∧ Py.contains path (url_path url) = true)
          ∨ (path = "/" ∧ url = base).

(** The three situations of a meta tag, for a given reading of "empty
    content", and what each one requires of the flag and of the issues
    recorded for the page. *)
Inductive meta_case : Type := TagAbsent | ContentEmpty | ContentPresent.

Definition meta_case_of (is_empty : string -> bool) (s : soup) (name : string) : meta_case :=
  match find_meta s name with
  | None => TagAbsent
  | Some t => if is_empty (get t "content" "") then ContentEmpty else ContentPresent
  end.

Definition meta_outcome (cs : meta_case) (name : string) (has : bool)
    (issues : list string) : Prop :=
  match cs with
  | TagAbsent =>
      has = false ∧ ("Missing meta " +:+ name) ∈ issues ∧ ("Empty meta " +:+ name) ∉ issues
  | ContentEmpty =>
      has = false ∧ ("Empty meta " +:+ name) ∈ issues ∧ ("Missing meta " +:+ name) ∉ issues
  | ContentPresent =>
      has = true ∧ (("Missing meta " +:+ name) ∉ issues) ∧ ("Empty meta " +:+ name) ∉ issues
  end.

Definition meta_rule (is_empty : string -> bool) (s : soup) (url : string) : Prop :=
  let m := _extract_meta_info s url in
  meta_outcome (meta_case_of is_empty s "description") "description"
               (has_meta_description m) (seo_issues m)
  ∧ meta_outcome (meta_case_of is_empty s "keywords") "keywords"
                 (has_meta_keywords m) (seo_issues m).

(** Empty as written, and empty once surrounding white space is
    removed. *)
Definition literally_empty (content : string) : bool := String.eqb content "".
Definition blank (content : string) : bool := String.eqb (Py.strip content) "".

(** The request fails, the status is not 200, reading the body fails or
    the parser fails. *)
Definition fetch_or_parse_failure (BeautifulSoup : string -> option soup)
    (fetch : string -> fetch_outcome) (url : string) : Prop :=
  match fetch url with
  | RequestFailed => True
  | Response status text =>
      status ≠ 200 ∨
      match text with
      | None => True
      | Some html => BeautifulSoup html = None
      end
  end.

(** The selectors [_process_url] tries on the page at [url], in the
    order in which it tries them, each with the entry it belongs to. *)
Definition attempts (configs : list (string * form_config)) (url : string)
    : list (form_config * string) :=
  flat_map (fun entry : string * form_config =>
              if entry_applies entry.1 url
              then map (pair entry.2) (config_selectors entry.2)
              else [])
           configs.

Definition raises_on (select_one : soup -> string -> outcome (option tag)) (s : soup)
    (attempt : form_config * string) : bool :=
  match select_one s attempt.2 with
  | Raised => true
  | Returned _ => false
  end.

(** The attempts made before the first one on which the engine raises. *)
Fixpoint before_raise (select_one : soup -> string -> outcome (option tag)) (s : soup)
    (l : list (form_config * string)) : list (form_config * string) :=
  match l with
  | [] => []
  | attempt :: rest =>
      if raises_on select_one s attempt then []
      else attempt :: before_raise select_one s rest
  end.

(** The record an attempt gives, if any. *)
Definition record_of (select_one : soup -> string -> outcome (option tag))
    (url : string) (s : soup) (meta : meta_info) (attempt : form_config * string)
    : option form_data :=
  match select_one s attempt.2 with
  | Returned (Some form) =>
      match collect_fields form with
      | [] => None
      | fields => Some (make_form_data url form attempt.2 attempt.1 fields meta)
      end
  | _ => None
  end.

(** The extraction fails on the page at [url]: the page is fetched and
    parsed, and the engine raises on a selector tried on it. *)
Definition extraction_failure (BeautifulSoup : string -> option soup)
    (select_one : soup -> string -> outcome (option tag))
    (fetch : string -> fetch_outcome) (configs : list (string * form_config))
    (url : string) : Prop :=
  ∃ html s, fetch url = Response 200 (Some html) ∧ BeautifulSoup html = Some s
            ∧ existsb (raises_on select_one s) (attempts configs url) = true.

(** The records built on the page at [url]: those of the selectors tried
    before the engine raised, if it did; none when the page cannot be
    fetched or parsed. *)
Definition page_records (BeautifulSoup : string -> option soup)
    (select_one : soup -> string -> outcome (option tag))
    (fetch : string -> fetch_outcome) (configs : list (string * form_config))
    (url : string) : list form_data :=
  match fetch url with
  | Response status (Some html) =>
      if status =? 200 then
        match BeautifulSoup html with
        | Some s =>
            omap (record_of select_one url s (_extract_meta_info s url))
                 (before_raise select_one s (attempts configs url))
        | None => []
        end
      else []
  | _ => []
  end.

(** The rule of the specification for failures: a URL whose fetch,
    parse or extraction fails contributes no form and no link. *)
Definition spec_failure_rule (BeautifulSoup : string -> option soup)
    (select_one : soup -> string -> outcome (option tag))
    (urljoin : string -> string -> option string)
    (fetch : string -> fetch_outcome) (c : WebCrawler) : Prop :=
  ∀ url,
    fetch_or_parse_failure BeautifulSoup fetch url
    ∨ extraction_failure BeautifulSoup select_one fetch (form_configs c) url →
    let r := Exn._process_url BeautifulSoup select_one urljoin fetch c url in
    r.2 = [] ∧ forms_found r.1 = forms_found c ∧ all_urls r.1 = all_urls c.

(** What a stretch of page processing does to the crawler: it admits
    the URLs [links], builds the records [forms] and issues requests for
    [urls]; the queue, the visited set and the settings stay. *)
Record effect (c c' : WebCrawler) (links : list string) (forms : list form_data)
    (urls : list string) : Prop := {
  eff_base_url : base_url c' = base_url c;
  eff_visited : visited c' = visited c;
  eff_queue : queue c' = queue c;
  eff_batch_size : batch_size c' = batch_size c;
  eff_max_pages : max_pages c' = max_pages c;
  eff_timeout_minutes : timeout_minutes c' = timeout_minutes c;
  eff_form_configs : form_configs c' = form_configs c;
  eff_enqueued : enqueued c' = enqueued c;
  eff_all_urls : all_urls c' = list_to_set links ∪ all_urls c;
  eff_nodup : NoDup links;
  eff_fresh : ∀ u, u ∈ links → u ∉ all_urls c;
  eff_produced : produced c' = produced c ++ forms;
  eff_forms_found : forms_found c' = fold_left append_new forms (forms_found c);
  eff_fetched : fetched c' = fetched c ++ urls
}.

(** The tasks of a batch in the order in which they run to their end at
    the [n]-th turn of the loop. *)
Definition completion_order (completion : nat -> list nat) (n : nat)
    (current_batch : list string) : list (nat * string) :=
  let tasks := zip (seq 0 (length current_batch)) current_batch in
  resume_order (length tasks) (completion n) tasks.

(** A priority URL in the words of the specification: its path contains
    a fragment of the catalog. *)
Definition is_priority (c : WebCrawler) (url : string) : bool :=
  existsb (fun fragment => Py.contains fragment (url_path url)) (form_configs c).*1.

Definition stands_before (u w : string) (l : list string) : Prop :=
  ∃ i j : nat, l !! i = Some u ∧ l !! j = Some w ∧ (i < j)%nat.

(** The rule of the specification for the place of a URL admitted in a
    turn of the loop, where [waiting] is the queue left after the batch
    was taken and [queue'] the queue after the turn: a priority URL
    stands before every waiting URL that is not one, any other URL
    stands behind every waiting URL. *)
Definition spec_priority_rule (c : WebCrawler) (waiting queue' : list string) : Prop :=
  ∀ u, u ∈ queue' → u ∉ waiting →
    if is_priority c u
    then ∀ w, w ∈ waiting → is_priority c w = false → stands_before u w queue'
    else ∀ w, w ∈ waiting → stands_before w u queue'.

(** The loop "Add new URLs to queue" over the results of a batch: the
    URLs it puts on the queue, given the set [visited] before it. *)
Fixpoint queued_from (seen : gset string) (results : list (list string)) : list string :=
  match results with
  | [] => []
  | new_urls :: rest =>
      let unseen := filter (fun url => url ∉ seen) new_urls in
      unseen ++ queued_from (seen ∪ list_to_set unseen) rest
  end.

(** The anchors [_process_url] goes through on the page at [url]; none
    when the page cannot be fetched or parsed. *)
Definition page_anchors (BeautifulSoup : string -> option soup)
    (fetch : string -> fetch_outcome) (url : string) : list tag :=
  match fetch url with
  | Response status (Some html) =>
      if status =? 200 then
        match BeautifulSoup html with
        | Some s => find_anchors s
        | None => []
        end
      else []
  | _ => []
  end.

(** The rule of the specification for the order of the rows: the forms
    of the report are the records in the order of their first
    production, and the rows do not depend on the order in which the
    requests of a batch complete. *)
Definition spec_row_order (run : (nat -> list nat) -> option (terminal * WebCrawler)) : Prop :=
  (∀ completion r c, run completion = Some (r, c) →
     forms_found c = first_occurrences (produced c))
  ∧ (∀ completion1 completion2 r1 c1 r2 c2,
       run completion1 = Some (r1, c1) → run completion2 = Some (r2, c2) →
       save_forms_to_csv c1 = save_forms_to_csv c2).

(** Every URL put on the queue so far was put there once and is a known
    URL. *)
Definition enqueued_once (c : WebCrawler) : Prop :=
  NoDup (enqueued c) ∧ ∀ u, u ∈ enqueued c → u ∈ all_urls c.

(** The forms of the report are the records built so far, each at the
    place of its first production. *)
Definition report_in_production_order (c : WebCrawler) : Prop :=
  forms_found c = first_occurrences (produced c).

(** The strings [_should_crawl_url] looks for in a path. *)
Definition denylist : list string := skipped_extensions ++ skipped_patterns.

(** The two issues a meta tag can give. *)
Definition issues_of (name : string) : list string :=
  ["Missing meta " +:+ name; "Empty meta " +:+ name].

(** The selectors of a catalog, in the order of the catalog. *)
Definition catalog_selectors (configs : list (string * form_config)) : list string :=
  flat_map (fun entry : string * form_config => config_selectors entry.2) configs.

(** A crawler that has not crawled yet, as [__init__] builds it. *)
Definition fresh (c : WebCrawler) : Prop :=
  visited c = ∅ ∧ all_urls c = ∅ ∧ fetched c = [] ∧ forms_found c = [] ∧ produced c = [].

(** The books of the frontier are in order: the URLs put on the queue
    are the ones requested and the ones still waiting, none was put
    there twice, [visited] holds exactly these URLs, and all of them are
    known. *)
Definition accounted (c : WebCrawler) : Prop :=
  fetched c ++ queue c ≡ₚ enqueued c
  ∧ NoDup (enqueued c)
  ∧ visited c = list_to_set (enqueued c)
  ∧ ∀ u, u ∈ visited c → u ∈ all_urls c.

(** A URL admitted from a link: the normalised form of a link target
    that starts with the base URL and passes the crawl filter. *)
Definition admitted_link (c : WebCrawler) (u : string) : Prop :=
  Py.startswith u (base_url c) = true
  ∧ ∃ full_url, _normalize_url full_url = Some u
                ∧ _should_crawl_url c full_url = Some true.

(** From [c] to [c'] the known URLs grew by admitted links only. *)
Definition known_from (c c' : WebCrawler) : Prop :=
  base_url c' = base_url c
  ∧ ∀ u, u ∈ all_urls c' → u ∈ all_urls c ∨ admitted_link c u.

(** The parts of an absolute URL written [scheme://host/path?...#...]:
    a scheme that starts with a letter and is made of scheme characters;
    a host without delimiters, brackets and line breaks; a path that is
    empty or starts with a slash and has no [?], [#], [;] or line break;
    a rest that is empty or starts with [?] or [#]. *)
Definition is_slash (ch : ascii) : bool := Ascii.eqb ch "/".
Definition host_char (ch : ascii) : bool :=
  negb (Py.mem_char ch "/?#[]") && negb (UrlParse.is_unsafe ch).
Definition path_char (ch : ascii) : bool :=
  negb (Py.mem_char ch "?#;") && negb (UrlParse.is_unsafe ch).

Definition wf_scheme (scheme : string) : bool :=
  match scheme with
  | String ch _ => UrlParse.is_alpha ch && UrlParse.all_chars UrlParse.is_scheme_char scheme
  | EmptyString => false
  end.
Definition wf_host (host : string) : bool := UrlParse.all_chars host_char host.
Definition wf_path (path : string) : bool :=
  match path with
  | String ch _ => is_slash ch && UrlParse.all_chars path_char path
  | EmptyString => true
  end.
Definition wf_rest (rest : string) : bool :=
  match rest with
  | String ch _ => Py.mem_char ch "?#"
  | EmptyString => true
  end.

Definition compose_url (scheme host path rest : string) : string :=
  scheme +:+ "://" +:+ host +:+ path +:+ rest.

(** The path of a key: trailing slashes dropped, runs of slashes
    collapsed, as [_normalize_url] does. *)
Definition clean_path (path : string) : string :=
  Py.collapse_slashes (Py.rstrip (fun ch => Ascii.eqb ch "/") path).

(** Whether a string ends with a slash. *)
Fixpoint ends_with_slash (s : string) : bool :=
  match s with
  | EmptyString => false
  | String ch EmptyString => Ascii.eqb ch "/"
  | String _ s' => ends_with_slash s'
  end.

(** * Properties *)

(** ** The two extraction paths agree *)

Section Extraction.

Variable BeautifulSoup : string -> option soup.
Variable select_one : soup -> string -> option tag.

Lemma try_selector_forms url s meta config c forms selector :
  (try_selector select_one url s meta config (c, forms) selector).2
  = forms ++ option_list (form_for_selector select_one url s meta config selector).
Proof.
  unfold try_selector, form_for_selector.
  destruct (select_one s selector) as [form|]; simpl; [|by rewrite app_nil_r].
  destruct (collect_fields form) as [|f fs] eqn:Hf; simpl.
  - by rewrite app_nil_r.
  - done.
Qed.

Lemma fold_try_selector_forms url s meta config selectors : forall c forms,
  (fold_left (try_selector select_one url s meta config) selectors (c, forms)).2
  = forms ++ omap (form_for_selector select_one url s meta config) selectors.
Proof.
  induction selectors as [|selector rest IH]; intros c forms; cbn [fold_left omap].
  - by rewrite app_nil_r.
  - pose proof (try_selector_forms url s meta config c forms selector) as Hstep.
    destruct (try_selector select_one url s meta config (c, forms) selector)
      as [c1 forms1]; simpl in Hstep; subst forms1.
    rewrite IH, <- app_assoc. f_equal. simpl.
    by destruct (form_for_selector select_one url s meta config selector).
Qed.

Lemma fold_try_config_forms url s meta configs : forall c forms,
  (fold_left (try_config select_one url s meta) configs (c, forms)).2
  = forms ++ flat_map (forms_for_config select_one url s meta) configs.
Proof.
  induction configs as [|[path config] rest IH]; intros c forms;
    cbn [fold_left flat_map].
  - by rewrite app_nil_r.
  - unfold try_config at 2. unfold forms_for_config at 1.
    destruct (entry_applies path url) eqn:Happ.
    + pose proof (fold_try_selector_forms url s meta config
                    (config_selectors config) c forms) as Hstep.
      destruct (fold_left (try_selector select_one url s meta config)
                  (config_selectors config) (c, forms)) as [c1 forms1].
      simpl in Hstep; subst forms1. by rewrite IH, <- app_assoc.
    + by rewrite IH.
Qed.

Lemma extract_inline_forms url s meta c :
  (extract_inline select_one url s meta c).2
  = flat_map (forms_for_config select_one url s meta) (form_configs c).
Proof. unfold extract_inline. by rewrite fold_try_config_forms. Qed.

(** C10: on every URL and every page body, the never-called helper
    [_extract_form_info] returns the same list of form records, in the
    same order, as the inline extraction of [_process_url] builds in
    its local list [forms]. *)
Theorem C10_extraction_paths_agree (c : WebCrawler) (url html : string) :
  _extract_form_info BeautifulSoup select_one c url html
  = inline_forms BeautifulSoup select_one c url html.
Proof.
  unfold _extract_form_info, inline_forms.
  destruct (BeautifulSoup html) as [s|]; [|done].
  by rewrite extract_inline_forms.
Qed.

End Extraction.

(** ** Which records the extraction builds *)

Section Records.

Variable select_one : soup -> string -> option tag.

Lemma record_forms_nil c : record_forms [] c = c.
Proof. destruct c. unfold record_forms, set_forms_found, set_produced. simpl.
       by rewrite app_nil_r. Qed.

Lemma record_forms_app new1 new2 c :
  record_forms (new1 ++ new2) c = record_forms new2 (record_forms new1 c).
Proof.
  unfold record_forms, set_forms_found, set_produced. simpl.
  by rewrite fold_left_app, app_assoc.
Qed.

Lemma try_selector_crawler url s meta config c forms selector :
  (try_selector select_one url s meta config (c, forms) selector).1
  = record_forms (option_list (form_for_selector select_one url s meta config selector)) c.
Proof.
  unfold try_selector, form_for_selector.
  destruct (select_one s selector) as [form|]; simpl; [|by rewrite record_forms_nil].
  destruct (collect_fields form) as [|f fs] eqn:Hf; simpl.
  - by rewrite record_forms_nil.
  - unfold record_forms, append_new. simpl.
    case_bool_decide; destruct c; done.
Qed.

Lemma fold_try_selector_crawler url s meta config selectors : forall c forms,
  (fold_left (try_selector select_one url s meta config) selectors (c, forms)).1
  = record_forms (omap (form_for_selector select_one url s meta config) selectors) c.
Proof.
  induction selectors as [|selector rest IH]; intros c forms; cbn [fold_left].
  - by rewrite record_forms_nil.
  - pose proof (try_selector_crawler url s meta config c forms selector) as Hstep.
    destruct (try_selector select_one url s meta config (c, forms) selector)
      as [c1 forms1]; simpl in Hstep; subst c1.
    rewrite IH, <- record_forms_app. f_equal. simpl.
    by destruct (form_for_selector select_one url s meta config selector).
Qed.

Lemma fold_try_config_crawler url s meta configs : forall c forms,
  (fold_left (try_config select_one url s meta) configs (c, forms)).1
  = record_forms (flat_map (forms_for_config select_one url s meta) configs) c.
Proof.
  induction configs as [|[path config] rest IH]; intros c forms;
    cbn [fold_left flat_map].
  - by rewrite record_forms_nil.
  - unfold try_config at 2. unfold forms_for_config at 1.
    destruct (entry_applies path url) eqn:Happ.
    + pose proof (fold_try_selector_crawler url s meta config
                    (config_selectors config) c forms) as Hstep.
      destruct (fold_left (try_selector select_one url s meta config)
                  (config_selectors config) (c, forms)) as [c1 forms1].
      simpl in Hstep; subst c1. by rewrite IH, <- record_forms_app.
    + by rewrite IH.
Qed.

(** The inline extraction, both components. *)
Lemma extract_inline_eq url s meta c :
  extract_inline select_one url s meta c
  = (record_forms (flat_map (forms_for_config select_one url s meta) (form_configs c)) c,
     flat_map (forms_for_config select_one url s meta) (form_configs c)).
Proof.
  unfold extract_inline.
  pose proof (fold_try_config_crawler url s meta (form_configs c) c []) as H1.
  pose proof (fold_try_config_forms select_one url s meta (form_configs c) c []) as H2.
  destruct (fold_left _ _ _) as [c1 forms1]. simpl in *. by subst.
Qed.

(** A record is in the list exactly when it is the record of a
    selector of an applicable entry that matches a form with at least
    one field left. *)
Lemma elem_of_extracted url s meta configs fd :
  fd ∈ flat_map (forms_for_config select_one url s meta) configs ↔
  ∃ path config selector form,
    (path, config) ∈ configs ∧ selector ∈ config_selectors config ∧
    entry_applies path url = true ∧ select_one s selector = Some form ∧
    collect_fields form ≠ [] ∧
    fd = make_form_data url form selector config (collect_fields form) meta.
Proof.
  rewrite list_elem_of_In, in_flat_map. split.
  - intros ([path config] & Hin & Hfd). apply list_elem_of_In in Hin, Hfd.
    unfold forms_for_config in Hfd.
    destruct (entry_applies path url) eqn:Happ; [|by apply elem_of_nil in Hfd].
    apply list_elem_of_omap in Hfd as (selector & Hsel & Hform).
    unfold form_for_selector in Hform.
    destruct (select_one s selector) as [form|] eqn:Hone; [|done].
    destruct (collect_fields form) as [|f fs] eqn:Hf; [done|].
    exists path, config, selector, form. rewrite Hf. naive_solver.
  - intros (path & config & selector & form & Hin & Hsel & Happ & Hone & Hne & ->).
    exists (path, config). split; [by apply list_elem_of_In|].
    apply list_elem_of_In. unfold forms_for_config. rewrite Happ.
    apply list_elem_of_omap. exists selector. split; [done|].
    unfold form_for_selector. rewrite Hone.
    by destruct (collect_fields form).
Qed.

End Records.

(** ** Fields and identifiers of the records *)

Section Fields.

Variable select_one : soup -> string -> option tag.

Lemma collect_fields_not_excluded form f :
  f ∈ collect_fields form → ¬ excluded_type (field_type f).
Proof.
  unfold collect_fields. intros (t & _ & Hrec)%list_elem_of_omap.
  unfold field_record in Hrec. case_bool_decide as Hty; [|done].
  injection Hrec as <-. simpl. intros [Hx|Hx]; apply Hty; rewrite Hx; set_solver.
Qed.

Lemma field_record_excluded t :
  tag_name t = "input" → excluded_type (get t "type" "text") → field_record t = None.
Proof.
  intros Hname Hty. unfold field_record. rewrite Hname. simpl.
  rewrite bool_decide_eq_false_2; [done|].
  intros Hnot. apply Hnot. destruct Hty as [-> | ->]; set_solver.
Qed.

Lemma collect_fields_only_hidden form :
  only_hidden_or_submit form → collect_fields form = [].
Proof.
  unfold only_hidden_or_submit, collect_fields. intros Hall.
  induction (find_all ["input"; "textarea"; "select"] form) as [|t ts IH]; [done|].
  simpl. rewrite field_record_excluded; [|apply Hall; left..].
  apply IH. intros t' Ht'. apply Hall. by right.
Qed.

Lemma elem_of_fold_append_new new : forall acc fd,
  fd ∈ fold_left append_new new acc → fd ∈ acc ∨ fd ∈ new.
Proof.
  induction new as [|x new IH]; intros acc fd; simpl; [by left|].
  intros [Hacc|Hnew]%IH; [|by right; right].
  unfold append_new in Hacc. case_bool_decide; [|by left].
  apply elem_of_app in Hacc as [?|Heq%list_elem_of_singleton]; [by left|].
  subst. by right; left.
Qed.

(** C6: in every record the extraction builds for a page, and in every
    record it adds to the report, no field has type [hidden] or
    [submit] and the list of fields is not empty; the record comes
    from a matched form that has a control other than hidden and
    submit inputs, so a form with only such inputs gives no record. *)
Theorem C6_hidden_and_submit_excluded (c : WebCrawler) (url : string) (s : soup)
    (meta : meta_info) (fd : form_data) :
  fd ∈ (extract_inline select_one url s meta c).2 ∨
  (fd ∈ forms_found (extract_inline select_one url s meta c).1 ∧ fd ∉ forms_found c) →
  (∀ f, f ∈ form_fields fd → ¬ excluded_type (field_type f)) ∧
  form_fields fd ≠ [] ∧
  ∃ form, select_one s (form_selector fd) = Some form ∧
          form_fields fd = collect_fields form ∧
          ¬ only_hidden_or_submit form.
Proof.
  rewrite extract_inline_eq. simpl. intros Hfd.
  assert (fd ∈ flat_map (forms_for_config select_one url s meta) (form_configs c))
    as Hin.
  { destruct Hfd as [?|[Hff Hold]]; [done|].
    apply elem_of_fold_append_new in Hff as [?|?]; done. }
  apply elem_of_extracted in Hin
    as (path & config & selector & form & _ & _ & _ & Hone & Hne & ->).
  simpl. split_and!.
  - intros f. apply collect_fields_not_excluded.
  - done.
  - exists form. split_and!; [done..|].
    intros Honly. by apply Hne, collect_fields_only_hidden.
Qed.

(** C8: for a crawler with the catalog of [__init__], the identifier
    of every record is the [id] attribute of the matched element when
    that attribute is there and not empty, and otherwise the selector
    with the word [form] removed and the leading [.] and [#]
    stripped. *)
Theorem C8_form_id (c : WebCrawler) (url : string) (s : soup) (meta : meta_info)
    (fd : form_data) :
  form_configs c = default_form_configs →
  fd ∈ (extract_inline select_one url s meta c).2 →
  ∃ form, select_one s (form_selector fd) = Some form ∧
    form_id fd =
      match assoc "id" (tag_attrs form) with
      | Some id => if bool_decide (id ≠ "") then id else spec_form_id (form_selector fd)
      | None => spec_form_id (form_selector fd)
      end.
Proof.
  intros Hcat. rewrite extract_inline_eq. cbn [snd]. rewrite Hcat.
  intros (path & config & selector & form & Hin & Hsel & _ & Hone & _ & ->)%elem_of_extracted.
  exists form. split; [done|]. simpl.
  assert (Py.strip_chars ".#" (Py.replace "form" "" selector) = spec_form_id selector)
    as Hfallback.
  { assert (Forall (fun entry : string * form_config =>
              Forall (fun sel => Py.strip_chars ".#" (Py.replace "form" "" sel)
                                 = spec_form_id sel) (config_selectors entry.2))
              default_form_configs) as Hall.
    { repeat (constructor; [repeat (constructor; [reflexivity|]); constructor|]).
      constructor. }
    rewrite Forall_forall in Hall. specialize (Hall _ Hin). simpl in Hall.
    rewrite Forall_forall in Hall. by apply Hall. }
  unfold compute_form_id, get, truthy.
  destruct (assoc "id" (tag_attrs form)) as [id|]; simpl.
  - destruct (String.eqb_spec id ""); simpl.
    + by rewrite bool_decide_eq_false_2 by naive_solver.
    + by rewrite bool_decide_eq_true_2.
  - done.
Qed.

End Fields.

(** ** Meta tags *)

(** C7, as stated, fails: a description tag whose content is a single
    space is present with content that is not empty, yet the flag is
    false and "Empty meta description" is recorded. *)
Lemma C7_counterexample :
  ¬ meta_rule literally_empty
      [Tag "meta" [("name", "description"); ("content", " ")] []] "http://site.test".
Proof. intros [[Hhas _] _]. vm_compute in Hhas. discriminate. Qed.

Ltac decide_issue :=
  first [ by apply (bool_decide_unpack _); vm_compute
        | by apply (bool_decide_unpack _); vm_compute; intros [] ].

(** C7, amended: for the description tag and for the keywords tag,
    exactly one of three cases holds.  The tag is absent, the flag is
    false and "Missing meta ..." is recorded; the tag is there with a
    content that is empty once surrounding white space is stripped (or
    with no content attribute), the flag is false and "Empty meta ..."
    is recorded, not "Missing meta ..."; the tag is there with other
    content, the flag is true and no issue is recorded for it. *)
Theorem C7_meta_cases (s : soup) (url : string) : meta_rule blank s url.
Proof.
  unfold meta_rule, meta_case_of, blank, _extract_meta_info, truthy.
  destruct (find_meta s "description") as [d|];
    destruct (find_meta s "keywords") as [k|];
    repeat match goal with
           | |- context [String.eqb ?x ""] => destruct (String.eqb x "")
           end;
    simpl; split; split_and!; first [done | decide_issue].
Qed.

(** ** Which catalog entries are applied *)

(** C1, as stated, fails on a page other than the root of a site whose
    host contains a catalog fragment: the code applies the sentinel entry
    and the entry of the fragment. *)
Lemma C1_counterexample :
  ¬ spec_entry_rule "http://register-now.test" "http://register-now.test/about".
Proof.
  intros Hrule.
  destruct (proj1 (Hrule "register-now") ltac:(vm_compute; reflexivity))
    as [[_ Hpath]|[Hsentinel _]].
  - vm_compute in Hpath. discriminate.
  - discriminate.
Qed.

(** At that page, which is not the root, the sentinel entry is applied
    too. *)
Example sentinel_and_host_example :
  let url := "http://register-now.test/about" in
  url_path url = "/about"
  ∧ entry_applies "register-now" url = true
  ∧ Py.contains "register-now" (url_path url) = false
  ∧ entry_applies "/" url = true.
Proof. vm_compute. done. Qed.

Section Applied.

Variable select_one : soup -> string -> option tag.

(** C1, amended: an entry is applied on a page exactly when its
    fragment occurs somewhere in the URL string of the page or is the
    sentinel [/], which holds on every page.  Every record comes from
    a selector of such an entry, and every selector of such an entry
    that matches a form with a field left gives its record. *)
Theorem C1_entries_applied (c : WebCrawler) (url : string) (s : soup)
    (meta : meta_info) :
  let forms := (extract_inline select_one url s meta c).2 in
  (∀ fd, fd ∈ forms →
     ∃ path config,
       (path, config) ∈ form_configs c ∧
       form_selector fd ∈ config_selectors config ∧
       form_type fd = config_name config ∧
       (Py.contains path url = true ∨ path = "/"))
  ∧ (∀ path config selector form,
       (path, config) ∈ form_configs c →
       selector ∈ config_selectors config →
       Py.contains path url = true ∨ path = "/" →
       select_one s selector = Some form →
       collect_fields form ≠ [] →
       make_form_data url form selector config (collect_fields form) meta ∈ forms).
Proof.
  intros forms. subst forms. rewrite extract_inline_eq. cbn [snd]. split.
  - intros fd (path & config & selector & form & Hin & Hsel & Happ & _ & _ & ->)%elem_of_extracted.
    exists path, config. split_and!; [done..|].
    unfold entry_applies in Happ. apply orb_true_iff in Happ as [?|Heq]; [by left|].
    right. by apply String.eqb_eq.
  - intros path config selector form Hin Hsel Happ Hone Hne.
    apply elem_of_extracted. exists path, config, selector, form.
    split_and!; try done.
    unfold entry_applies. apply orb_true_iff.
    destruct Happ as [?| ->]; [by left | by right].
Qed.

End Applied.

(** ** The results of a batch *)

Section Results.

Variable BeautifulSoup : string -> option soup.
Variable select_one : soup -> string -> option tag.
Variable urljoin : string -> string -> option string.
Variable fetch : string -> fetch_outcome.
Variable completion : nat -> list nat.

Lemma gather_length n c current_batch :
  length (gather BeautifulSoup select_one urljoin fetch completion n c current_batch).2
  = length current_batch.
Proof.
  unfold gather. destruct (fold_left _ _ _) as [c' finished]. simpl.
  by rewrite length_map, length_seq.
Qed.

End Results.

(** ** The tasks of a batch and the loop over their results *)

Lemma resume_order_perm {A} (n : nat) : forall (choices : list nat) (pending : list A),
  length pending = n → resume_order n choices pending ≡ₚ pending.
Proof.
  induction n as [|n IH]; intros choices pending Hlen.
  - by destruct pending.
  - simpl.
    assert (hd 0 choices mod length pending < length pending)%nat as Hk
      by (apply Nat.mod_upper_bound; lia).
    destruct (lookup_lt_is_Some_2 _ _ Hk) as [t Ht]. rewrite Ht.
    etrans; [|symmetry; apply (delete_Permutation pending _ t Ht)].
    constructor. apply IH. rewrite length_delete by eauto. lia.
Qed.

Lemma completion_order_perm (completion : nat -> list nat) (n : nat)
    (current_batch : list string) :
  (completion_order completion n current_batch).*1 ≡ₚ seq 0 (length current_batch)
  ∧ (completion_order completion n current_batch).*2 ≡ₚ current_batch.
Proof.
  unfold completion_order.
  pose proof (resume_order_perm
                (length (zip (seq 0 (length current_batch)) current_batch))
                (completion n) (zip (seq 0 (length current_batch)) current_batch) eq_refl)
    as Hperm.
  split; rewrite Hperm.
  - by rewrite fst_zip by (by rewrite length_seq).
  - by rewrite snd_zip by (by rewrite length_seq).
Qed.

Lemma result_of_app_other (i : nat) (l l' : list (nat * list string)) :
  i ∉ l.*1 → result_of i (l ++ l') = result_of i l'.
Proof.
  induction l as [|[j r] l IH]; intros Hi; [done|]. simpl in *.
  rewrite bool_decide_eq_false_2 by set_solver. apply IH. set_solver.
Qed.

(** The loop "Add new URLs to queue" puts the URLs of [queued_from] at
    the back of the queue. *)
Lemma fold_add_new_urls_eq results : forall c,
  fold_left add_new_urls results c
  = set_enqueued (enqueued c ++ queued_from (visited c) results)
      (set_visited (visited c ∪ list_to_set (queued_from (visited c) results))
         (set_queue (queue c ++ queued_from (visited c) results) c)).
Proof.
  induction results as [|new_urls results IH]; intros c; cbn [fold_left queued_from].
  - destruct c. unfold set_enqueued, set_visited, set_queue. simpl.
    rewrite !app_nil_r. f_equal. set_solver.
  - rewrite IH. unfold add_new_urls, set_enqueued, set_visited, set_queue. simpl.
    rewrite !app_assoc, list_to_set_app_L. f_equal. set_solver.
Qed.

(** Nothing is left out when the results hold distinct URLs that were
    not visited. *)
Lemma queued_from_all results : forall seen : gset string,
  NoDup (concat results) → (∀ u, u ∈ concat results → u ∉ seen) →
  queued_from seen results = concat results.
Proof.
  induction results as [|new_urls results IH]; intros seen Hdup Hnew; [done|].
  cbn [queued_from concat] in *.
  apply NoDup_app in Hdup as (Hd1 & Hd12 & Hd2).
  assert (filter (fun url => url ∉ seen) new_urls = new_urls) as ->.
  { clear -Hnew. induction new_urls as [|u l IHl]; [done|].
    rewrite filter_cons_True by (apply Hnew; set_solver).
    f_equal. apply IHl. intros v Hv. apply Hnew. set_solver. }
  f_equal. apply IH; [done|].
  intros u Hu. apply not_elem_of_union. split; [apply Hnew; set_solver|].
  rewrite elem_of_list_to_set. intros Hin. by apply (Hd12 u).
Qed.

(** ** The effect of processing pages *)

Section Effects.

Variable BeautifulSoup : string -> option soup.
Variable select_one : soup -> string -> option tag.
Variable urljoin : string -> string -> option string.
Variable fetch : string -> fetch_outcome.
Variable completion : nat -> list nat.

Lemma effect_refl c : effect c c [] [] [].
Proof.
  split; try done.
  - set_solver.
  - constructor.
  - intros u Hu. by apply elem_of_nil in Hu.
  - by rewrite app_nil_r.
  - by rewrite app_nil_r.
Qed.

Lemma effect_trans c c1 c2 l1 l2 f1 f2 u1 u2 :
  effect c c1 l1 f1 u1 → effect c1 c2 l2 f2 u2 →
  effect c c2 (l1 ++ l2) (f1 ++ f2) (u1 ++ u2).
Proof.
  intros [] []. split; try congruence.
  - rewrite eff_all_urls1, eff_all_urls0, list_to_set_app_L. set_solver.
  - apply NoDup_app. split_and!; [done| |done].
    intros u Hu1 Hu2. apply eff_fresh1 in Hu2. rewrite eff_all_urls0 in Hu2. set_solver.
  - intros u [Hu|Hu]%elem_of_app; [by apply eff_fresh0|].
    apply eff_fresh1 in Hu. rewrite eff_all_urls0 in Hu. set_solver.
  - by rewrite eff_produced1, eff_produced0, app_assoc.
  - by rewrite eff_forms_found1, eff_forms_found0, fold_left_app.
  - by rewrite eff_fetched1, eff_fetched0, app_assoc.
Qed.

(** What one anchor does: nothing, or the admission of one URL that
    was not known, at the front of [new_urls] when the test for
    form-related URLs holds and at the back otherwise. *)
Lemma consider_link_cases url c new_urls link :
  consider_link urljoin url (c, new_urls) link = (c, new_urls) ∨
  ∃ u, (u ∉ all_urls c) ∧ Py.startswith u (base_url c) = true ∧
       consider_link urljoin url (c, new_urls) link
       = (set_all_urls ({[u]} ∪ all_urls c) c,
          if is_form_related c u then u :: new_urls else new_urls ++ [u]).
Proof.
  unfold consider_link.
  destruct (negb (truthy (get link "href" "")) || _ || _); [by left|].
  destruct (urljoin url (get link "href" "")) as [full_url|]; [|by left].
  destruct (_normalize_url full_url) as [u|]; [|by left].
  destruct (Py.startswith u (base_url c)) eqn:Hbase; simpl; [|by left].
  destruct (_should_crawl_url c full_url) as [[]|]; simpl; [|by left..].
  case_bool_decide as Hnew; [|by left].
  right. exists u. done.
Qed.

Lemma fold_consider_link url c0 links : forall c new_urls,
  effect c0 c new_urls [] [] →
  let r := fold_left (consider_link urljoin url) links (c, new_urls) in
  effect c0 r.1 r.2 [] [].
Proof.
  induction links as [|link links IH]; intros c new_urls Heff; cbn [fold_left]; [done|].
  destruct (consider_link_cases url c new_urls link) as [->|(u & Hu & _ & ->)];
    [by apply IH|].
  apply IH. destruct Heff. rewrite eff_all_urls0 in Hu.
  assert (u ∉ new_urls) by set_solver.
  split; simpl; try done.
  - rewrite eff_all_urls0. destruct (is_form_related c u);
      [rewrite list_to_set_cons | rewrite list_to_set_app_L]; set_solver.
  - destruct (is_form_related c u); [by constructor|].
    apply NoDup_app. split_and!; [done| |apply NoDup_singleton]. set_solver.
  - intros v Hv. destruct (is_form_related c u); set_solver.
Qed.

Lemma effect_fetched c url : effect c (set_fetched (fetched c ++ [url]) c) [] [] [url].
Proof.
  split; simpl; try done.
  - set_solver.
  - constructor.
  - intros u Hu. by apply elem_of_nil in Hu.
  - by rewrite app_nil_r.
Qed.

Lemma effect_record_forms c forms : effect c (record_forms forms c) [] forms [].
Proof.
  split; simpl; try done.
  - set_solver.
  - constructor.
  - intros u Hu. by apply elem_of_nil in Hu.
  - by rewrite app_nil_r.
Qed.

Local Abbreviation process_url := (_process_url BeautifulSoup select_one urljoin fetch).
Local Abbreviation page_forms := (process_url_forms BeautifulSoup select_one urljoin fetch).

(** [_process_url] admits the URLs it returns, builds the records of
    its list [forms] and issues one request. *)
Lemma process_url_effect c url :
  effect c (process_url c url).1 (process_url c url).2 (page_forms c url) [url].
Proof.
  unfold _process_url, process_url_forms, process_url_body. cbn zeta.
  pose proof (effect_fetched c url) as Hfetch.
  destruct (fetch url) as [|status text]; [done|].
  destruct (negb (status =? 200)); [done|].
  destruct text as [html|]; [|done].
  destruct (BeautifulSoup html) as [s|]; [|done].
  rewrite extract_inline_eq.
  set (c0 := set_fetched (fetched c ++ [url]) c) in *.
  set (forms := flat_map _ (form_configs c0)).
  pose proof (effect_record_forms c0 forms) as Hforms.
  pose proof (fold_consider_link url (record_forms forms c0) (find_anchors s)
                (record_forms forms c0) [] (effect_refl _)) as Hlinks.
  destruct (fold_left _ _ _) as [c2 new_urls]. simpl in *.
  pose proof (effect_trans _ _ _ _ _ _ _ _ _ Hfetch
                (effect_trans _ _ _ _ _ _ _ _ _ Hforms Hlinks)) as Hall.
  simpl in Hall. by rewrite app_nil_r in Hall.
Qed.

(** The list [forms] of a page depends on the crawler through the
    catalog only. *)
Lemma page_forms_catalog c c' url :
  form_configs c = form_configs c' → page_forms c url = page_forms c' url.
Proof.
  intros Hcat. unfold process_url_forms, process_url_body. cbn zeta.
  destruct (fetch url) as [|status text]; [done|].
  destruct (negb (status =? 200)); [done|].
  destruct text as [html|]; [|done].
  destruct (BeautifulSoup html) as [s|]; [|done].
  rewrite !extract_inline_eq. simpl. rewrite Hcat.
  by do 2 destruct (fold_left _ _ _).
Qed.

(** The tasks of a batch, run in the order [order]. *)
Lemma fold_run_task order : forall c finished,
  let r := fold_left (run_task BeautifulSoup select_one urljoin fetch) order (c, finished) in
  ∃ later, r.2 = finished ++ later ∧
    effect c r.1 (concat later.*2) (flat_map (fun task => page_forms c task.2) order)
           order.*2.
Proof.
  induction order as [|task order IH]; intros c finished; cbn [fold_left].
  - exists []. split; [by rewrite app_nil_r|]. apply effect_refl.
  - pose proof (process_url_effect c task.2) as Hstep.
    assert (run_task BeautifulSoup select_one urljoin fetch (c, finished) task
            = ((process_url c task.2).1,
               finished ++ [(task.1, (process_url c task.2).2)])) as ->.
    { unfold run_task. by destruct (process_url c task.2). }
    destruct (process_url c task.2) as [c1 new_urls]. simpl in Hstep. cbn [fst snd].
    destruct (IH c1 (finished ++ [(task.1, new_urls)])) as (later & Hfin & Heff).
    exists ((task.1, new_urls) :: later). split.
    + by rewrite Hfin, <- app_assoc.
    + pose proof (effect_trans _ _ _ _ _ _ _ _ _ Hstep Heff) as Hall.
      cbn [flat_map fmap list_fmap concat snd].
      replace (flat_map (fun task0 => page_forms c task0.2) order)
        with (flat_map (fun task0 => page_forms c1 task0.2) order); [done|].
      apply flat_map_ext. intros t. apply page_forms_catalog.
      by destruct Hstep.
Qed.

(** The result of a task is the list [_process_url] returns for its
    URL, called on the crawler left by the tasks that ran before. *)
Lemma fold_run_task_result before : forall c finished i url after,
  i ∉ finished.*1 → i ∉ before.*1 →
  result_of i (fold_left (run_task BeautifulSoup select_one urljoin fetch)
                 (before ++ (i, url) :: after) (c, finished)).2
  = (process_url
       (fold_left (run_task BeautifulSoup select_one urljoin fetch) before (c, finished)).1
       url).2.
Proof.
  induction before as [|t before IH]; intros c finished i url after Hfin Hbefore.
  - cbn [app fold_left fst]. unfold run_task at 2. cbn [snd].
    destruct (process_url c url) as [c1 new_urls] eqn:Hp. cbn [fst snd].
    destruct (fold_run_task after c1 (finished ++ [(i, new_urls)])) as (later & -> & _).
    rewrite <- app_assoc, result_of_app_other by done.
    simpl. by rewrite bool_decide_eq_true_2.
  - cbn [app fold_left]. unfold run_task at 2 4.
    destruct (process_url c t.2) as [c1 new_urls].
    apply IH; [|set_solver].
    rewrite fmap_app. set_solver.
Qed.

(** The list [_process_url] returns is built from the anchors of the
    page by [consider_link], starting from the empty list. *)
Lemma process_url_links c url :
  ∃ c', base_url c' = base_url c ∧ all_urls c' = all_urls c
        ∧ form_configs c' = form_configs c
        ∧ (process_url c url).2
          = (fold_left (consider_link urljoin url) (page_anchors BeautifulSoup fetch url)
               (c', [])).2.
Proof.
  unfold _process_url, process_url_body, page_anchors. cbn zeta.
  destruct (fetch url) as [|status text]; [by exists c|].
  destruct text as [html|]; [|exists c; by destruct (negb (status =? 200))].
  destruct (status =? 200); simpl; [|by exists c].
  destruct (BeautifulSoup html) as [s|]; [|by exists c].
  rewrite extract_inline_eq.
  set (c1 := record_forms _ _).
  exists c1. split_and!; [done..|].
  by destruct (fold_left _ _ _).
Qed.

Lemma submseteq_NoDup {A} (l k : list A) : l ⊆+ k → NoDup k → NoDup l.
Proof.
  intros [k' Hk]%submseteq_Permutation Hdup. rewrite Hk in Hdup.
  by apply NoDup_app in Hdup as (? & _ & _).
Qed.

Lemma result_of_other j r rest (indices : list nat) :
  j ∉ indices →
  map (fun i => result_of i ((j, r) :: rest)) indices
  = map (fun i => result_of i rest) indices.
Proof.
  induction indices as [|i indices IH]; intros Hj; [done|]. simpl.
  rewrite bool_decide_eq_false_2 by set_solver.
  f_equal. apply IH. set_solver.
Qed.

(** Handing the results back in the order of the tasks loses and
    repeats nothing beyond what the tasks returned. *)
Lemma results_submseteq finished : forall indices : list nat,
  NoDup indices →
  concat (map (fun i => result_of i finished) indices) ⊆+ concat finished.*2.
Proof.
  induction finished as [|[j r] rest IH]; intros indices Hdup.
  - replace (concat (map (fun i => result_of i []) indices)) with (@nil string); [done|].
    clear Hdup. induction indices as [|i indices IHi]; simpl; auto.
  - cbn [fmap list_fmap concat snd].
    destruct (decide (j ∈ indices)) as [Hj|Hj].
    + apply list_elem_of_split in Hj as (i1 & i2 & ->).
      apply NoDup_app in Hdup as (Hd1 & Hd12 & [Hj2 Hd2]%NoDup_cons).
      assert (j ∉ i1) as Hj1 by (intros Hin; apply (Hd12 _ Hin); by left).
      rewrite map_app, concat_app. cbn [map concat].
      rewrite !result_of_other by done.
      cbn [result_of]. rewrite bool_decide_eq_true_2 by done.
      rewrite (Permutation_app_swap_app (concat (map _ i1)) r).
      apply submseteq_skips_l. rewrite <- concat_app, <- map_app.
      apply IH. apply NoDup_app. split_and!; [done| |done].
      intros x Hx1 Hx2. apply (Hd12 _ Hx1). by right.
    + rewrite result_of_other by done.
      apply submseteq_inserts_l. by apply IH.
Qed.

Local Abbreviation gather_batch :=
  (gather BeautifulSoup select_one urljoin fetch completion).

(** A batch: the tasks run in completion order, and the results hold
    URLs admitted by them, each once. *)
Lemma gather_effect n c current_batch :
  ∃ links,
    effect c (gather_batch n c current_batch).1 links
      (flat_map (fun task => page_forms c task.2)
                (completion_order completion n current_batch))
      (completion_order completion n current_batch).*2
    ∧ concat (gather_batch n c current_batch).2 ⊆+ links.
Proof.
  unfold gather, completion_order. cbn zeta.
  destruct (fold_run_task
              (resume_order (length (zip (seq 0 (length current_batch)) current_batch))
                 (completion n) (zip (seq 0 (length current_batch)) current_batch))
              c []) as (later & Hfin & Heff).
  destruct (fold_left _ _ _) as [c' finished]. simpl in *. subst finished.
  exists (concat later.*2). split; [done|].
  apply results_submseteq, NoDup_seq.
Qed.

(** The loop "Add new URLs to queue": the URLs added are some of the
    URLs of the results, in their order, and go to the back. *)
Lemma fold_add_new_urls results : forall c,
  ∃ added, added `sublist_of` concat results ∧
    fold_left add_new_urls results c
    = set_enqueued (enqueued c ++ added)
        (set_visited (visited c ∪ list_to_set added)
           (set_queue (queue c ++ added) c)).
Proof.
  induction results as [|new_urls results IH]; intros c; cbn [fold_left].
  - exists []. split; [done|]. destruct c.
    unfold set_enqueued, set_visited, set_queue. simpl.
    rewrite !app_nil_r. f_equal. set_solver.
  - destruct (IH (add_new_urls c new_urls)) as (added & Hsub & ->).
    exists (filter (fun url => url ∉ visited c) new_urls ++ added). split.
    + cbn [concat]. apply sublist_app; [apply sublist_filter|done].
    + unfold add_new_urls, set_enqueued, set_visited, set_queue. simpl.
      rewrite !app_assoc, list_to_set_app_L. f_equal. set_solver.
Qed.

Local Abbreviation iteration :=
  (crawl_iteration BeautifulSoup select_one urljoin fetch completion).

(** One turn of the crawl loop. *)
Lemma crawl_iteration_summary n c :
  ∃ c2 links added,
    effect c c2 links
      (flat_map (fun task => page_forms c task.2)
         (completion_order completion n (Py.slice_to (batch_size c) (queue c))))
      (completion_order completion n (Py.slice_to (batch_size c) (queue c))).*2
    ∧ added ⊆+ links
    ∧ iteration n c
      = set_enqueued (enqueued c ++ added)
          (set_visited (visited c ∪ list_to_set added)
             (set_queue (Py.slice_from (batch_size c) (queue c) ++ added) c2)).
Proof.
  unfold crawl_iteration. cbn zeta.
  set (c1 := set_queue (Py.slice_from (batch_size c) (queue c)) c).
  destruct (gather_effect n c1 (Py.slice_to (batch_size c) (queue c)))
    as (links & Heff & Hres).
  rewrite (flat_map_ext (fun task => page_forms c1 task.2)
             (fun task => page_forms c task.2)) in Heff
    by (intros; by apply page_forms_catalog).
  destruct (gather_batch n c1 _) as [c2 results]. simpl in *.
  destruct (fold_add_new_urls results c2) as (added & Hsub & ->).
  exists (set_queue (queue c) c2), links, added. split_and!.
  - destruct Heff. split; simpl; try done.
  - etrans; [by apply sublist_submseteq|done].
  - destruct Heff. unfold set_enqueued, set_visited, set_queue. simpl.
    rewrite eff_enqueued0, eff_visited0, eff_queue0. done.
Qed.

End Effects.

(** ** The crawl loop *)

Section Loop.

Variable BeautifulSoup : string -> option soup.
Variable select_one : soup -> string -> option tag.
Variable urljoin : string -> string -> option string.
Variable fetch : string -> fetch_outcome.
Variable elapsed : nat -> Z.
Variable completion : nat -> list nat.

Local Abbreviation iteration :=
  (crawl_iteration BeautifulSoup select_one urljoin fetch completion).
Local Abbreviation loop :=
  (crawl_loop BeautifulSoup select_one urljoin fetch elapsed completion).
Local Abbreviation run_crawl :=
  (crawl BeautifulSoup select_one urljoin fetch elapsed completion).

(** A property kept by every turn holds when the loop ends. *)
Lemma crawl_loop_invariant (P : WebCrawler → Prop) :
  (∀ n c, P c → P (iteration n c)) →
  ∀ fuel n c r c', P c → loop fuel n c = Some (r, c') → P c'.
Proof.
  intros Hstep. induction fuel as [|fuel IH]; intros n c r c' HP; simpl; [done|].
  destruct (queue c); [by intros [= _ <-]|].
  destruct (_should_stop_crawling elapsed n c); [by intros [= _ <-]|].
  apply IH. by apply Hstep.
Qed.

Lemma enqueued_once_iteration n c : enqueued_once c → enqueued_once (iteration n c).
Proof.
  intros [Hdup Hknown].
  destruct (crawl_iteration_summary BeautifulSoup select_one urljoin fetch completion n c)
    as (c2 & links & added & Heff & Hsub & ->).
  destruct Heff. split; simpl.
  - apply NoDup_app. split_and!; [done| |by eapply submseteq_NoDup].
    intros u Hu Hadd. apply (eff_fresh0 u); [by eapply elem_of_submseteq|by apply Hknown].
  - intros u [Hu|Hu]%elem_of_app; rewrite eff_all_urls0.
    + apply elem_of_union_r. by apply Hknown.
    + apply elem_of_union_l, elem_of_list_to_set. by eapply elem_of_submseteq.
Qed.

Lemma enqueued_once_start c : enqueued_once (crawl_start c).
Proof. split; simpl; [apply NoDup_singleton|]. intros u. set_solver. Qed.

(** C4: when a crawl ends, no URL was put on the queue twice, and
    every URL put there is in [all_urls].  A link is admitted only
    when its normalised URL is not in [all_urls], and admitting it
    adds it there, so that it is rejected from then on. *)
Theorem C4_enqueued_at_most_once (fuel : nat) (c : WebCrawler) (r : terminal)
    (c' : WebCrawler) :
  run_crawl fuel c = Some (r, c') →
  NoDup (enqueued c')
  ∧ (∀ u, u ∈ enqueued c' → u ∈ all_urls c')
  ∧ (∀ url c1 new_urls link,
       let st := consider_link urljoin url (c1, new_urls) link in
       (∀ u, u ∈ all_urls c1 → u ∈ all_urls st.1)
       ∧ (∀ u, u ∈ st.2 → u ∈ new_urls ∨ ((u ∉ all_urls c1) ∧ u ∈ all_urls st.1))).
Proof.
  intros Hrun.
  destruct (crawl_loop_invariant enqueued_once enqueued_once_iteration
              fuel 0%nat (crawl_start c) r c' (enqueued_once_start c) Hrun) as [Hdup Hknown].
  split_and!; [done..|].
  intros url c1 new_urls link st. subst st.
  destruct (consider_link_cases urljoin url c1 new_urls link) as [->|(u & Hu & _ & ->)];
    simpl; [by split; [|left]|].
  split; [set_solver|].
  intros v Hv. destruct (is_form_related c1 u); set_solver.
Qed.

(** C3, amended: a link that is admitted goes into the list of new
    URLs of its own page, at the front when the lower-cased URL
    contains a key of the catalog and at the back otherwise; that list,
    built from the anchors of the page, is the result of the page's
    task.  The results of the pages of a batch, taken in the order of
    the batch and without the URLs already visited, go to the back of
    the queue, behind the URLs that were waiting; when the visited URLs
    are all known URLs, as they are during a crawl, no URL of a result
    is left out. *)
Theorem C3_admitted_urls_go_to_the_back (n : nat) (c : WebCrawler) :
  let waiting := Py.slice_from (batch_size c) (queue c) in
  let current_batch := Py.slice_to (batch_size c) (queue c) in
  let c0 := set_queue waiting c in
  let results :=
    (gather BeautifulSoup select_one urljoin fetch completion n c0 current_batch).2 in
  (∀ url c1 new_urls link,
     consider_link urljoin url (c1, new_urls) link = (c1, new_urls) ∨
     ∃ u, (u ∉ all_urls c1) ∧
          consider_link urljoin url (c1, new_urls) link
          = (set_all_urls ({[u]} ∪ all_urls c1) c1,
             if is_form_related c1 u then u :: new_urls else new_urls ++ [u]))
  ∧ (∀ c1 url,
       ∃ c2, base_url c2 = base_url c1 ∧ all_urls c2 = all_urls c1
             ∧ form_configs c2 = form_configs c1
             ∧ (_process_url BeautifulSoup select_one urljoin fetch c1 url).2
               = (fold_left (consider_link urljoin url)
                    (page_anchors BeautifulSoup fetch url) (c2, [])).2)
  ∧ length results = length current_batch
  ∧ (∀ i url, current_batch !! i = Some url →
       ∃ before after,
         completion_order completion n current_batch = before ++ (i, url) :: after
         ∧ results !! i
           = Some (_process_url BeautifulSoup select_one urljoin fetch
                     (fold_left (run_task BeautifulSoup select_one urljoin fetch)
                        before (c0, [])).1 url).2)
  ∧ queue (iteration n c) = waiting ++ queued_from (visited c) results
  ∧ enqueued (iteration n c) = enqueued c ++ queued_from (visited c) results
  ∧ ((∀ u, u ∈ visited c → u ∈ all_urls c) →
     queued_from (visited c) results = concat results).
Proof.
  intros waiting current_batch c0 results. split_and!.
  - intros url c1 new_urls link.
    destruct (consider_link_cases urljoin url c1 new_urls link) as [?|(u & ? & _ & ?)];
      [by left|right; by exists u].
  - intros c1 url. apply process_url_links.
  - apply gather_length.
  - intros i url Hi.
    destruct (completion_order_perm completion n current_batch) as [Hidx _].
    assert ((i, url) ∈ completion_order completion n current_batch) as Hin.
    { unfold completion_order.
      rewrite resume_order_perm by done.
      apply list_elem_of_lookup. exists i.
      apply lookup_zip_with_Some. exists i, url. split_and!; [done| |done].
      apply lookup_seq. split; [done|]. by eapply lookup_lt_Some. }
    apply list_elem_of_split in Hin as (before & after & Horder).
    exists before, after. split; [done|].
    assert (i ∉ before.*1) as Hbefore.
    { rewrite Horder, fmap_app in Hidx. cbn [fmap list_fmap fst] in Hidx.
      assert (NoDup (before.*1 ++ i :: after.*1)) as Hdup
        by (rewrite Hidx; apply NoDup_seq).
      apply NoDup_app in Hdup as (_ & Hd & _). intros Hb. apply (Hd _ Hb). by left. }
    subst results. unfold gather. cbn zeta.
    fold (completion_order completion n current_batch). rewrite Horder.
    pose proof (fold_run_task_result BeautifulSoup select_one urljoin fetch completion
                  before c0 [] i url after ltac:(set_solver) Hbefore) as Hres.
    destruct (fold_left (run_task BeautifulSoup select_one urljoin fetch)
                (before ++ (i, url) :: after) (c0, [])) as [c' finished].
    cbn [snd] in *. rewrite list_lookup_fmap, lookup_seq_lt by (by eapply lookup_lt_Some).
    simpl. by rewrite Hres.
  - unfold crawl_iteration. cbn zeta. fold waiting current_batch c0. subst results.
    destruct (gather_effect BeautifulSoup select_one urljoin fetch completion n c0
                current_batch) as (links & Heff & _).
    destruct (gather BeautifulSoup select_one urljoin fetch completion n c0 current_batch)
      as [c2 res]. cbn [fst snd] in *.
    rewrite fold_add_new_urls_eq. simpl.
    by rewrite (eff_queue _ _ _ _ _ Heff), (eff_visited _ _ _ _ _ Heff).
  - unfold crawl_iteration. cbn zeta. fold waiting current_batch c0. subst results.
    destruct (gather_effect BeautifulSoup select_one urljoin fetch completion n c0
                current_batch) as (links & Heff & _).
    destruct (gather BeautifulSoup select_one urljoin fetch completion n c0 current_batch)
      as [c2 res]. cbn [fst snd] in *.
    rewrite fold_add_new_urls_eq. simpl.
    by rewrite (eff_enqueued _ _ _ _ _ Heff), (eff_visited _ _ _ _ _ Heff).
  - intros Hknown. subst results.
    destruct (gather_effect BeautifulSoup select_one urljoin fetch completion n c0
                current_batch) as (links & Heff & Hsub).
    apply queued_from_all.
    + eapply submseteq_NoDup; [done|]. apply (eff_nodup _ _ _ _ _ Heff).
    + intros u Hu Hvis.
      apply (eff_fresh _ _ _ _ _ Heff u); [by eapply elem_of_submseteq|].
      by apply Hknown.
Qed.

Lemma report_order_iteration n c :
  report_in_production_order c → report_in_production_order (iteration n c).
Proof.
  unfold report_in_production_order, first_occurrences. intros Hrep.
  destruct (crawl_iteration_summary BeautifulSoup select_one urljoin fetch completion n c)
    as (c2 & links & added & Heff & _ & ->).
  destruct Heff. simpl.
  by rewrite eff_forms_found0, eff_produced0, Hrep, fold_left_app.
Qed.

(** C5, amended: the forms of the report are the records in the order
    of their first production, and the rows follow that order.  Within
    a batch the records are produced page after page in the order in
    which the requests complete, not in the order of the batch. *)
Theorem C5_rows_in_production_order (fuel : nat) (c : WebCrawler) (r : terminal)
    (c' : WebCrawler) :
  report_in_production_order c →
  run_crawl fuel c = Some (r, c') →
  forms_found c' = first_occurrences (produced c')
  ∧ save_forms_to_csv c'
    = match forms_found c' with
      | [] => None
      | _ :: _ => Some (csv_header :: map csv_row (first_occurrences (produced c')))
      end
  ∧ ∀ n c1,
      produced (iteration n c1)
      = produced c1
        ++ flat_map
             (fun task => process_url_forms BeautifulSoup select_one urljoin fetch c1 task.2)
             (completion_order completion n (Py.slice_to (batch_size c1) (queue c1))).
Proof.
  intros Hrep Hrun.
  assert (report_in_production_order c') as Hend.
  { apply (crawl_loop_invariant report_in_production_order report_order_iteration
             fuel 0%nat (crawl_start c) r c'); [|done].
    unfold report_in_production_order. by simpl. }
  split_and!; [done| |].
  - unfold save_forms_to_csv. by rewrite <- Hend.
  - intros n c1.
    destruct (crawl_iteration_summary BeautifulSoup select_one urljoin fetch completion n c1)
      as (c2 & links & added & Heff & _ & ->).
    destruct Heff. by simpl.
Qed.

(** C2: with a page budget of one the loop stops at its first test,
    before any request: [crawl] has put the base URL in [visited]
    although nothing was fetched. *)
Theorem C2_visited_before_fetched (fuel : nat) (c : WebCrawler) :
  max_pages c ≤ 1 →
  ∃ c', run_crawl (S fuel) c = Some (PageLimitReached, c')
        ∧ visited c' = {[base_url c]} ∪ visited c
        ∧ fetched c' = fetched c
        ∧ queue c' = [base_url c].
Proof.
  intros Hmax. exists (crawl_start c). split_and!; [|done..].
  unfold crawl. simpl. unfold _should_stop_crawling. simpl.
  assert (size ({[base_url c]} ∪ visited c) ≠ 0%nat) as Hsize.
  { apply size_non_empty_iff. set_solver. }
  destruct (Z.leb_spec (max_pages c) (Z.of_nat (size ({[base_url c]} ∪ visited c))));
    [done|lia].
Qed.

End Loop.

(** ** Failures while processing one URL *)

Lemma fold_left_fmap {A B C} (f : A → C → A) (g : B → C) (l : list B) : forall a,
  fold_left f (map g l) a = fold_left (fun a x => f a (g x)) l a.
Proof. induction l as [|x l IH]; intros a; simpl; [done|apply IH]. Qed.

Lemma fold_left_pointwise {A B} (f g : A → B → A) (l : list B) :
  (∀ a x, f a x = g a x) → ∀ a, fold_left f l a = fold_left g l a.
Proof.
  intros Hfg. induction l as [|x l IH]; intros a; simpl; [done|].
  by rewrite Hfg, IH.
Qed.

Lemma result_of_nil (i : nat) (l : list (nat * list string)) :
  (∀ r, (i, r) ∈ l → r = []) → result_of i l = [].
Proof.
  induction l as [|[j r] l IH]; intros Hl; [done|]. simpl.
  case_bool_decide as Hij.
  - subst j. apply Hl. by left.
  - apply IH. intros r' Hr'. apply Hl. by right.
Qed.

Lemma elem_of_tasks (j : nat) (url : string) (current_batch : list string) :
  (j, url) ∈ zip (seq 0 (length current_batch)) current_batch → current_batch !! j = Some url.
Proof.
  intros (k & Hk)%list_elem_of_lookup.
  apply lookup_zip_with_Some in Hk as (j' & url' & [= <- <-] & Hj & Hurl).
  apply lookup_seq in Hj as [-> _]. done.
Qed.

Section Raising.

Variable BeautifulSoup : string -> option soup.
Variable select_one : soup -> string -> outcome (option tag).
Variable urljoin : string -> string -> option string.
Variable fetch : string -> fetch_outcome.
Variable completion : nat -> list nat.

Local Abbreviation try_attempt url s meta :=
  (fun st (attempt : form_config * string) =>
     Exn.try_selector select_one url s meta attempt.1 st attempt.2).

Lemma fold_try_config_attempts url s meta configs : forall st,
  fold_left (Exn.try_config select_one url s meta) configs st
  = fold_left (try_attempt url s meta) (attempts configs url) st.
Proof.
  induction configs as [|[path config] configs IH]; intros st; [done|].
  cbn [fold_left attempts flat_map fst snd]. fold (attempts configs url).
  rewrite fold_left_app, IH. unfold Exn.try_config.
  destruct (entry_applies path url); [|done].
  by rewrite fold_left_fmap.
Qed.

Lemma fold_try_attempt_raised url s meta l c :
  fold_left (try_attempt url s meta) l (c, Raised) = (c, Raised).
Proof. induction l as [|a l IH]; [done|]. simpl. apply IH. Qed.

Lemma try_attempt_returned url s meta attempt c forms :
  try_attempt url s meta (c, Returned forms) attempt
  = if raises_on select_one s attempt then (c, Raised)
    else (record_forms (option_list (record_of select_one url s meta attempt)) c,
          Returned (forms ++ option_list (record_of select_one url s meta attempt))).
Proof.
  unfold Exn.try_selector, raises_on, record_of.
  destruct (select_one s attempt.2) as [[form|]|]; [| |done].
  - destruct (collect_fields form) as [|f fs] eqn:Hf; simpl.
    + by rewrite record_forms_nil, app_nil_r.
    + f_equal. unfold record_forms, append_new. simpl.
      case_bool_decide; destruct c; done.
  - simpl. by rewrite record_forms_nil, app_nil_r.
Qed.

Lemma fold_try_attempt url s meta l : forall c forms,
  fold_left (try_attempt url s meta) l (c, Returned forms)
  = (record_forms (omap (record_of select_one url s meta) (before_raise select_one s l)) c,
     if existsb (raises_on select_one s) l then Raised
     else Returned (forms ++ omap (record_of select_one url s meta) l)).
Proof.
  induction l as [|a l IH]; intros c forms.
  - simpl. by rewrite record_forms_nil, app_nil_r.
  - cbn [fold_left]. rewrite try_attempt_returned.
    cbn [existsb before_raise omap].
    destruct (raises_on select_one s a); cbn [orb].
    + rewrite fold_try_attempt_raised. simpl. by rewrite record_forms_nil.
    + rewrite IH. cbn [omap list_omap].
      destruct (record_of select_one url s meta a) as [fd|]; cbn [option_list].
      * by rewrite <- record_forms_app, <- app_assoc.
      * by rewrite record_forms_nil, app_nil_r.
Qed.

(** The inline extraction, both components. *)
Lemma exn_extract_inline_eq url s meta c :
  Exn.extract_inline select_one url s meta c
  = (record_forms (omap (record_of select_one url s meta)
                     (before_raise select_one s (attempts (form_configs c) url))) c,
     if existsb (raises_on select_one s) (attempts (form_configs c) url) then Raised
     else Returned (omap (record_of select_one url s meta) (attempts (form_configs c) url))).
Proof. unfold Exn.extract_inline. by rewrite fold_try_config_attempts, fold_try_attempt. Qed.

Lemma before_raise_all s l :
  existsb (raises_on select_one s) l = false → before_raise select_one s l = l.
Proof.
  induction l as [|a l IH]; [done|]. simpl.
  destruct (raises_on select_one s a); [done|]. simpl. intros Hl. by rewrite IH.
Qed.

Local Abbreviation process_url := (Exn._process_url BeautifulSoup select_one urljoin fetch).
Local Abbreviation body := (Exn.process_url_body BeautifulSoup select_one urljoin fetch).
Local Abbreviation records := (page_records BeautifulSoup select_one fetch).

(** [_process_url] admits the URLs it returns, builds the records of
    the page and issues one request. *)
Lemma exn_process_url_effect c url :
  effect c (process_url c url).1 (process_url c url).2 (records (form_configs c) url) [url].
Proof.
  unfold Exn._process_url, Exn.process_url_body, page_records. cbn zeta.
  pose proof (effect_fetched BeautifulSoup urljoin fetch c url) as Hfetch.
  destruct (fetch url) as [|status text]; [done|].
  destruct text as [html|]; [|by destruct (negb (status =? 200))].
  destruct (status =? 200); simpl; [|done].
  destruct (BeautifulSoup html) as [s|]; [|done].
  rewrite exn_extract_inline_eq.
  set (c0 := set_fetched (fetched c ++ [url]) c) in *.
  change (form_configs c0) with (form_configs c).
  set (l := attempts (form_configs c) url).
  set (built := omap _ (before_raise select_one s l)).
  pose proof (effect_record_forms BeautifulSoup urljoin fetch c0 built) as Hforms.
  destruct (existsb (raises_on select_one s) l) eqn:Hraise.
  - pose proof (effect_trans BeautifulSoup urljoin fetch _ _ _ _ _ _ _ _ _ Hfetch Hforms)
      as Hall.
    simpl in *. done.
  - pose proof (fold_consider_link BeautifulSoup (fun _ _ => None) urljoin fetch url
                  (record_forms built c0) (find_anchors s)
                  (record_forms built c0) []
                  (effect_refl BeautifulSoup urljoin fetch _)) as Hlinks.
    destruct (fold_left _ _ _) as [c2 new_urls]. simpl in *.
    pose proof (effect_trans BeautifulSoup urljoin fetch _ _ _ _ _ _ _ _ _ Hfetch
                  (effect_trans BeautifulSoup urljoin fetch _ _ _ _ _ _ _ _ _ Hforms Hlinks))
      as Hall.
    simpl in Hall. by rewrite app_nil_r in Hall.
Qed.

(** A failure ends [_process_url] with the empty list; but for a
    status other than 200, the body of the [try] raised. *)
Lemma exn_failure_result c url :
  fetch_or_parse_failure BeautifulSoup fetch url
  ∨ extraction_failure BeautifulSoup select_one fetch (form_configs c) url →
  (process_url c url).2 = []
  ∧ ((body c url).2 = Raised
     ∨ ∃ status text, fetch url = Response status text ∧ status ≠ 200
                      ∧ (body c url).2 = Returned ([], [])).
Proof.
  unfold fetch_or_parse_failure, extraction_failure, Exn._process_url, Exn.process_url_body.
  cbn zeta. intros [Hfail|(html & s & Hfetch & Hparse & Hraise)].
  - destruct (fetch url) as [|status text]; [by split; [|left]|].
    destruct (Z.eqb_spec status 200) as [->|Hne]; simpl.
    + destruct Hfail as [?|Hfail]; [done|].
      destruct text as [html|]; [rewrite Hfail|]; by split; [|left].
    + split; [done|]. right. by exists status, text.
  - rewrite Hfetch. simpl. rewrite Hparse, exn_extract_inline_eq. simpl.
    rewrite Hraise. by split; [|left].
Qed.

Lemma fetch_or_parse_failure_records configs url :
  fetch_or_parse_failure BeautifulSoup fetch url → records configs url = [].
Proof.
  unfold fetch_or_parse_failure, page_records.
  destruct (fetch url) as [|status text]; [done|].
  destruct text as [html|]; [|done].
  destruct (Z.eqb_spec status 200) as [->|Hne]; [|done].
  intros [? | ->]; done.
Qed.

End Raising.

Section Failures.

Variable BeautifulSoup : string -> option soup.
Variable select_one : soup -> string -> outcome (option tag).
Variable urljoin : string -> string -> option string.
Variable fetch : string -> fetch_outcome.
Variable completion : nat -> list nat.

Local Abbreviation process_url := (Exn._process_url BeautifulSoup select_one urljoin fetch).
Local Abbreviation body := (Exn.process_url_body BeautifulSoup select_one urljoin fetch).
Local Abbreviation records := (page_records BeautifulSoup select_one fetch).
Local Abbreviation task := (Exn.run_task BeautifulSoup select_one urljoin fetch).
Local Abbreviation gather_batch :=
  (Exn.gather BeautifulSoup select_one urljoin fetch completion).
Local Abbreviation iteration :=
  (Exn.crawl_iteration BeautifulSoup select_one urljoin fetch completion).

(** The tasks of a batch, run in the order [order]: each result is the
    list [_process_url] returns for the URL of the task. *)
Lemma exn_fold_run_task order : forall c finished,
  let r := fold_left task order (c, finished) in
  ∃ later, r.2 = finished ++ later
    ∧ (∀ j new_urls, (j, new_urls) ∈ later →
         ∃ c1 url, (j, url) ∈ order ∧ form_configs c1 = form_configs c
                   ∧ new_urls = (process_url c1 url).2)
    ∧ effect c r.1 (concat later.*2)
        (flat_map (fun t : nat * string => records (form_configs c) t.2) order) order.*2.
Proof.
  induction order as [|t order IH]; intros c finished; cbn [fold_left].
  - exists []. split_and!; [by rewrite app_nil_r| |apply effect_refl; done].
    intros j new_urls Hin. by apply elem_of_nil in Hin.
  - pose proof (exn_process_url_effect BeautifulSoup select_one urljoin fetch c t.2) as Hstep.
    assert (task (c, finished) t
            = ((process_url c t.2).1, finished ++ [(t.1, (process_url c t.2).2)])) as ->.
    { unfold Exn.run_task. by destruct (process_url c t.2). }
    destruct (process_url c t.2) as [c1 new_urls] eqn:Hp. cbn [fst snd] in *.
    destruct (IH c1 (finished ++ [(t.1, new_urls)])) as (later & Hfin & Hres & Heff).
    pose proof (eff_form_configs _ _ _ _ _ Hstep) as Hcat.
    exists ((t.1, new_urls) :: later). split_and!.
    + by rewrite Hfin, <- app_assoc.
    + intros j r [[= -> ->]|Hin]%elem_of_cons.
      * exists c, t.2. split_and!; [destruct t; simpl; by left|done|by rewrite Hp].
      * destruct (Hres j r Hin) as (c2 & url & Hurl & Hc2 & ->).
        exists c2, url. split_and!; [by right|congruence|done].
    + pose proof (effect_trans BeautifulSoup urljoin fetch _ _ _ _ _ _ _ _ _ Hstep Heff)
        as Hall.
      cbn [flat_map fmap list_fmap concat snd]. rewrite Hcat in Hall. exact Hall.
Qed.

(** A batch in which the URL at position [i] fails. *)
Lemma exn_gather_failure n c current_batch i url :
  current_batch !! i = Some url →
  fetch_or_parse_failure BeautifulSoup fetch url
  ∨ extraction_failure BeautifulSoup select_one fetch (form_configs c) url →
  let g := gather_batch n c current_batch in
  length g.2 = length current_batch
  ∧ g.2 !! i = Some []
  ∧ fetched g.1 ≡ₚ fetched c ++ current_batch
  ∧ queue g.1 = queue c ∧ visited g.1 = visited c ∧ enqueued g.1 = enqueued c.
Proof.
  intros Hi Hfail. unfold Exn.gather. cbn zeta.
  fold (completion_order completion n current_batch).
  destruct (exn_fold_run_task (completion_order completion n current_batch) c [])
    as (later & Hfin & Hres & Heff).
  destruct (fold_left task _ (c, [])) as [c' finished]. cbn [fst snd] in *. subst finished.
  split_and!.
  - by rewrite length_map, length_seq.
  - rewrite list_lookup_fmap, lookup_seq_lt by (by eapply lookup_lt_Some). simpl.
    f_equal. apply result_of_nil. intros r Hr.
    destruct (Hres i r Hr) as (c1 & url' & Hurl' & Hc1 & ->).
    assert (url' = url) as ->.
    { unfold completion_order in Hurl'. rewrite resume_order_perm in Hurl' by done.
      apply elem_of_tasks in Hurl'. congruence. }
    apply (exn_failure_result BeautifulSoup select_one urljoin fetch c1 url).
    by rewrite Hc1.
  - rewrite (eff_fetched _ _ _ _ _ Heff).
    by rewrite (proj2 (completion_order_perm completion n current_batch)).
  - apply (eff_queue _ _ _ _ _ Heff).
  - apply (eff_visited _ _ _ _ _ Heff).
  - apply (eff_enqueued _ _ _ _ _ Heff).
Qed.


End Failures.

(** ** An engine that does not raise

    With an engine that returns on every selector, [_process_url] and
    [crawl] are the functions of the first part, so that what is proved
    of them holds of the crawler with an engine that can raise as long
    as it does not. *)

Section Agreement.

Variable BeautifulSoup : string -> option soup.
Variable select_one : soup -> string -> option tag.
Variable urljoin : string -> string -> option string.
Variable fetch : string -> fetch_outcome.
Variable elapsed : nat -> Z.
Variable completion : nat -> list nat.

Local Abbreviation returning :=
  (fun (s : soup) (selector : string) => Returned (select_one s selector)).

Lemma returning_never_raises s l : existsb (raises_on returning s) l = false.
Proof. by induction l. Qed.

Lemma returning_records url s meta configs :
  omap (record_of returning url s meta) (attempts configs url)
  = flat_map (forms_for_config select_one url s meta) configs.
Proof.
  induction configs as [|[path config] configs IH]; [done|].
  cbn [attempts flat_map fst snd]. fold (attempts configs url).
  rewrite omap_app, IH. f_equal. unfold forms_for_config.
  destruct (entry_applies path url); [|done].
  induction (config_selectors config) as [|selector selectors IHs]; [done|].
  cbn [map omap list_omap]. fold (@omap list _ _ _ (record_of returning url s meta)) in *.
  cbn [omap list_omap] in IHs. rewrite IHs.
  unfold record_of, form_for_selector. simpl.
  destruct (select_one s selector) as [form|]; [|done].
  by destruct (collect_fields form).
Qed.

Lemma process_url_body_returning c url :
  Exn.process_url_body BeautifulSoup returning urljoin fetch c url
  = process_url_body BeautifulSoup select_one urljoin fetch c url.
Proof.
  unfold Exn.process_url_body, process_url_body. cbn zeta.
  destruct (fetch url) as [|status text]; [done|].
  destruct (negb (status =? 200)); [done|].
  destruct text as [html|]; [|done].
  destruct (BeautifulSoup html) as [s|]; [|done].
  rewrite exn_extract_inline_eq, extract_inline_eq, returning_never_raises.
  rewrite before_raise_all by apply returning_never_raises.
  by rewrite returning_records.
Qed.

Lemma process_url_returning c url :
  Exn._process_url BeautifulSoup returning urljoin fetch c url
  = _process_url BeautifulSoup select_one urljoin fetch c url.
Proof. unfold Exn._process_url, _process_url. by rewrite process_url_body_returning. Qed.

Lemma gather_returning n c current_batch :
  Exn.gather BeautifulSoup returning urljoin fetch completion n c current_batch
  = gather BeautifulSoup select_one urljoin fetch completion n c current_batch.
Proof.
  unfold Exn.gather, gather. cbn zeta.
  rewrite (fold_left_pointwise (Exn.run_task BeautifulSoup returning urljoin fetch)
             (run_task BeautifulSoup select_one urljoin fetch)); [done|].
  intros [c1 finished] t. unfold Exn.run_task, run_task.
  by rewrite process_url_returning.
Qed.

Lemma crawl_iteration_returning n c :
  Exn.crawl_iteration BeautifulSoup returning urljoin fetch completion n c
  = crawl_iteration BeautifulSoup select_one urljoin fetch completion n c.
Proof. unfold Exn.crawl_iteration, crawl_iteration. by rewrite gather_returning. Qed.

(** The crawl with an engine that does not raise. *)
Lemma crawl_returning fuel c :
  Exn.crawl BeautifulSoup returning urljoin fetch elapsed completion fuel c
  = crawl BeautifulSoup select_one urljoin fetch elapsed completion fuel c.
Proof.
  unfold Exn.crawl, crawl. generalize (crawl_start c) 0%nat. clear c.
  induction fuel as [|fuel IH]; intros c n; simpl; [done|].
  destruct (queue c); [done|].
  destruct (_should_stop_crawling elapsed n c); [done|].
  by rewrite crawl_iteration_returning, IH.
Qed.

End Agreement.


(** ** The properties on the example sites *)

Ltac by_computation := apply (bool_decide_unpack _); vm_compute; exact I.

(** Spellings of a URL that differ in the case of the host, in repeated
    slashes and in a trailing slash have the same key. *)
Example normalize_spellings :
  _normalize_url "http://Example.com/a//b/" = Some "http://example.com/a/b"
  ∧ _normalize_url "http://example.com/a/b" = Some "http://example.com/a/b".
Proof. vm_compute. done. Qed.

Lemma C1_witness :
  Demo.root_record
  ∈ (extract_inline Demo.select_one "http://site.test" Demo.root_soup
       (Demo.no_meta "http://site.test") (Demo.crawler "http://site.test" 5 500)).2.
Proof.
  apply (proj2 (C1_entries_applied Demo.select_one (Demo.crawler "http://site.test" 5 500)
                  "http://site.test" Demo.root_soup (Demo.no_meta "http://site.test"))
           "/" {| config_name := "Get Free Recommendations";
                  config_selectors := ["form#home-recommendations"] |}
           "form#home-recommendations" (Demo.email_form "home-recommendations")).
  - by_computation.
  - by_computation.
  - right. reflexivity.
  - vm_compute. reflexivity.
  - vm_compute. discriminate.
Defined.

Lemma C6_witness :
  (∀ f, f ∈ form_fields Demo.root_record → ¬ excluded_type (field_type f))
  ∧ form_fields Demo.root_record ≠ []
  ∧ ∃ form, Demo.select_one Demo.root_soup (form_selector Demo.root_record) = Some form
            ∧ form_fields Demo.root_record = collect_fields form
            ∧ ¬ only_hidden_or_submit form.
Proof.
  apply (C6_hidden_and_submit_excluded Demo.select_one
           (Demo.crawler "http://site.test" 5 500) "http://site.test" Demo.root_soup
           (Demo.no_meta "http://site.test") Demo.root_record).
  left. by_computation.
Defined.

Lemma C8_witness :
  ∃ form, Demo.select_one Demo.contact_soup "form.contact-form" = Some form
    ∧ form_id Demo.contact_record =
        match assoc "id" (tag_attrs form) with
        | Some id => if bool_decide (id ≠ "") then id else spec_form_id "form.contact-form"
        | None => spec_form_id "form.contact-form"
        end.
Proof.
  apply (C8_form_id Demo.select_one (Demo.crawler "http://site.test" 5 500)
           "http://site.test/contact-us" Demo.contact_soup
           (Demo.no_meta "http://site.test/contact-us") Demo.contact_record).
  - vm_compute. reflexivity.
  - by_computation.
Defined.

(** The fallback identifier of the contact form. *)
Example contact_form_id :
  compute_form_id Demo.contact_form "form.contact-form" = "contact-"
  ∧ spec_form_id "form.contact-form" = "contact-".
Proof. vm_compute. done. Qed.


(** What processing that page leaves. *)
Example extraction_failure_example :
  let r := Exn._process_url (Demo.parse Demo.docs_signup) Demo.select_one_strict
             Demo.urljoin (Demo.fetch Demo.pages_signup) Demo.signup_crawler
             "http://site.test" in
  r.2 = [] ∧ forms_found r.1 = [Demo.signup_record] ∧ all_urls r.1 = ∅
  ∧ _process_url (Demo.parse Demo.docs_signup) Demo.select_one Demo.urljoin
      (Demo.fetch Demo.pages_signup)
      (Demo.crawler "http://site.test" 5 500) "http://site.test"
    = (set_all_urls {["http://site.test/about"]}
         (set_fetched ["http://site.test"] (Demo.crawler "http://site.test" 5 500)),
       ["http://site.test/about"]).
Proof. vm_compute. done. Qed.


Lemma C2_witness :
  ∃ c', Demo.run Demo.in_order 1 5 1 = Some (PageLimitReached, c')
        ∧ visited c' = {["http://site.test"]} ∪ ∅
        ∧ fetched c' = []
        ∧ queue c' = ["http://site.test"].
Proof.
  apply (C2_visited_before_fetched (Demo.parse Demo.docs) Demo.select_one Demo.urljoin
           (Demo.fetch Demo.pages) (fun _ => 0) Demo.in_order 0
           (Demo.crawler "http://Site.test/" 5 1)).
  vm_compute. discriminate.
Defined.

(** With a page budget of two the crawl of the example site stops after
    one request with three URLs in [visited]. *)
Example visited_counts_discovered_urls :
  let c' := Demo.final (Demo.run Demo.in_order 10 5 2) in
  Demo.run Demo.in_order 10 5 2 = Some (PageLimitReached, c')
  ∧ fetched c' = ["http://site.test"]
  ∧ size (visited c') = 3%nat
  ∧ queue c' = ["http://site.test/contact-us"; "http://site.test/about"].
Proof. vm_compute. done. Qed.

(** C3, as stated, fails: the contact page, a priority URL found on the
    blog page, is put on the queue behind the URL on another port, whose
    path is empty and which was waiting. *)
Lemma C3_counterexample :
  ¬ spec_priority_rule Demo.after_first_turn
      (Py.slice_from (batch_size Demo.after_first_turn) (queue Demo.after_first_turn))
      (queue (Demo.turn_ports 1 Demo.after_first_turn)).
Proof.
  assert (Py.slice_from (batch_size Demo.after_first_turn) (queue Demo.after_first_turn)
          = ["http://site.test:8080"]) as -> by (vm_compute; reflexivity).
  assert (queue (Demo.turn_ports 1 Demo.after_first_turn)
          = ["http://site.test:8080"; "http://site.test/contact-us"]) as ->
    by (vm_compute; reflexivity).
  intros Hrule.
  specialize (Hrule "http://site.test/contact-us").
  assert (is_priority Demo.after_first_turn "http://site.test/contact-us" = true) as Hprio
    by (vm_compute; reflexivity).
  rewrite Hprio in Hrule.
  destruct (Hrule ltac:(by_computation) ltac:(by_computation)
              "http://site.test:8080" ltac:(by_computation)
              ltac:(vm_compute; reflexivity))
    as (i & j & Hi & Hj & Hlt).
  destruct i as [|[|i]]; destruct j as [|[|j]]; simpl in *; try discriminate; lia.
Qed.

Lemma C3_witness :
  queue (Demo.turn_ports 1 Demo.after_first_turn)
  = ["http://site.test:8080"] ++ concat [["http://site.test/contact-us"]].
Proof.
  destruct (C3_admitted_urls_go_to_the_back (Demo.parse Demo.docs_ports) Demo.select_one
              Demo.urljoin (Demo.fetch Demo.pages_ports) Demo.in_order 1
              Demo.after_first_turn) as (_ & _ & _ & _ & Hqueue & _ & Hall).
  unfold Demo.turn_ports. rewrite Hqueue, Hall.
  - vm_compute. reflexivity.
  - assert (visited Demo.after_first_turn = all_urls Demo.after_first_turn) as ->
      by (vm_compute; reflexivity).
    done.
Defined.

(** The queue of that crawl before and after the second turn. *)
Example queue_order_example :
  queue Demo.after_first_turn = ["http://site.test/blog"; "http://site.test:8080"]
  ∧ queue (Demo.turn_ports 1 Demo.after_first_turn)
    = ["http://site.test:8080"; "http://site.test/contact-us"]
  ∧ url_path "http://site.test:8080" = ""
  ∧ is_priority Demo.after_first_turn "http://site.test:8080" = false
  ∧ is_priority Demo.after_first_turn "http://site.test/contact-us" = true.
Proof. vm_compute. done. Qed.

Lemma C4_witness :
  let c' := Demo.final (Demo.run Demo.in_order 10 5 500) in
  enqueued c' = ["http://site.test"; "http://site.test/contact-us"; "http://site.test/about"]
  ∧ NoDup (enqueued c').
Proof.
  intros c'. split; [vm_compute; reflexivity|].
  apply (C4_enqueued_at_most_once (Demo.parse Demo.docs) Demo.select_one Demo.urljoin
           (Demo.fetch Demo.pages) (fun _ => 0) Demo.in_order 10
           (Demo.crawler "http://Site.test/" 5 500) Completed c').
  vm_compute. reflexivity.
Defined.

(** C5, as stated, fails: on the example site the rows of the about page
    and of the contact page change places with the order in which the
    two requests of the second batch complete. *)
Lemma C5_counterexample :
  ¬ spec_row_order (fun completion => Demo.run completion 10 5 500).
Proof.
  intros [_ Hsame].
  specialize (Hsame Demo.in_order Demo.second_first
                Completed (Demo.final (Demo.run Demo.in_order 10 5 500))
                Completed (Demo.final (Demo.run Demo.second_first 10 5 500))
                ltac:(vm_compute; reflexivity) ltac:(vm_compute; reflexivity)).
  vm_compute in Hsame. discriminate.
Qed.

(** The two orders of the forms. *)
Example row_order_example :
  map form_url (forms_found (Demo.final (Demo.run Demo.in_order 10 5 500)))
  = ["http://site.test"; "http://site.test/contact-us"; "http://site.test/about"]
  ∧ map form_url (forms_found (Demo.final (Demo.run Demo.second_first 10 5 500)))
    = ["http://site.test"; "http://site.test/about"; "http://site.test/contact-us"].
Proof. vm_compute. done. Qed.

Lemma C5_witness :
  let c' := Demo.final (Demo.run Demo.second_first 10 5 500) in
  forms_found c' = first_occurrences (produced c').
Proof.
  intros c'.
  apply (C5_rows_in_production_order (Demo.parse Demo.docs) Demo.select_one Demo.urljoin
           (Demo.fetch Demo.pages) (fun _ => 0) Demo.second_first 10
           (Demo.crawler "http://Site.test/" 5 500) Completed c').
  - vm_compute. reflexivity.
  - vm_compute. reflexivity.
Defined.


(** * Further properties of the crawler *)

(** ** The crawl filter *)

(** X1: [_should_crawl_url] fails only when [urlparse] fails; otherwise
    it rejects a URL exactly when the lower-cased path contains one of
    the denied extensions or patterns, anywhere in the path.  The
    catalog has no part in the verdict. *)
Theorem should_crawl_url_denylist (c : WebCrawler) (url : string) :
  _should_crawl_url c url
  = (fun parsed =>
       negb (existsb (fun bad => Py.contains bad (Py.lower (UrlParse.path parsed)))
                     denylist))
    <$> UrlParse.urlparse url.
Proof.
  unfold _should_crawl_url, denylist.
  destruct (UrlParse.urlparse url) as [parsed|]; [|done].
  cbn [mbind option_bind fmap option_fmap option_map]. rewrite existsb_app.
  destruct (existsb _ skipped_extensions); [done|].
  destruct (existsb _ skipped_patterns); [done|].
  by destruct (existsb _ (form_configs c).*1).
Qed.

(** ** Meta tags *)

(** X2: in the record of a page each flag says whether the stored
    content is not empty, and the issues are at most one for the
    description followed by at most one for the keywords, one for each
    flag that is false. *)
Theorem meta_flags_match_issues (s : soup) (url : string) :
  let m := _extract_meta_info s url in
  meta_url m = url
  ∧ has_meta_description m = truthy (meta_description m)
  ∧ has_meta_keywords m = truthy (meta_keywords m)
  ∧ ∃ d k, d ∈ issues_of "description" ∧ k ∈ issues_of "keywords"
           ∧ seo_issues m
             = (if has_meta_description m then [] else [d])
               ++ (if has_meta_keywords m then [] else [k]).
Proof.
  unfold _extract_meta_info.
  destruct (find_meta s "description") as [d|];
    [destruct (truthy (Py.strip (get d "content" ""))) eqn:Hd|];
    (destruct (find_meta s "keywords") as [k|];
     [destruct (truthy (Py.strip (get k "content" ""))) eqn:Hk|]);
    simpl; rewrite ?Hd, ?Hk; (split_and!; [done..|]);
    first [ by exists "Missing meta description", "Missing meta keywords";
            split_and!; [by_computation..|]
          | by exists "Missing meta description", "Empty meta keywords";
            split_and!; [by_computation..|]
          | by exists "Empty meta description", "Missing meta keywords";
            split_and!; [by_computation..|]
          | by exists "Empty meta description", "Empty meta keywords";
            split_and!; [by_computation..|] ].
Qed.

(** ** The records of a page *)

Section PageRecords.

Variable select_one : soup -> string -> option tag.

Lemma selectors_of_records url s meta config selectors :
  map form_selector (omap (form_for_selector select_one url s meta config) selectors)
  `sublist_of` selectors.
Proof.
  induction selectors as [|selector rest IH]; [done|]. simpl.
  unfold form_for_selector at 1.
  destruct (select_one s selector) as [form|]; [|by apply sublist_cons].
  destruct (collect_fields form); [by apply sublist_cons|].
  simpl. by apply sublist_skip.
Qed.

Lemma selectors_of_page url s meta configs :
  map form_selector (flat_map (forms_for_config select_one url s meta) configs)
  `sublist_of` catalog_selectors configs.
Proof.
  induction configs as [|[path config] rest IH]; [done|].
  unfold catalog_selectors. cbn [flat_map]. rewrite map_app.
  apply sublist_app; [|done]. unfold forms_for_config. simpl.
  destruct (entry_applies path url); [apply selectors_of_records|apply sublist_nil_l].
Qed.

Lemma NoDup_map_inv {A B} (f : A → B) (l : list A) : NoDup (map f l) → NoDup l.
Proof.
  induction l as [|x l IH]; simpl; [constructor|].
  intros [Hx Hl]%NoDup_cons. constructor; [|by apply IH].
  intros Hin. apply Hx. apply list_elem_of_In, in_map. by apply list_elem_of_In.
Qed.

(** X3: the records of a page follow the catalog: their selectors are
    selectors of the catalog in the order of the catalog, each used at
    most as often as it occurs there; all carry the URL and the meta
    record of the page.  When no selector occurs twice in the catalog,
    no two records of a page are equal. *)
Theorem records_follow_catalog (c : WebCrawler) (url : string) (s : soup)
    (meta : meta_info) :
  let forms := (extract_inline select_one url s meta c).2 in
  map form_selector forms `sublist_of` catalog_selectors (form_configs c)
  ∧ (length forms ≤ length (catalog_selectors (form_configs c)))%nat
  ∧ Forall (fun fd => form_url fd = url ∧ form_meta_info fd = meta) forms
  ∧ (NoDup (catalog_selectors (form_configs c)) →
     NoDup (map form_selector forms) ∧ NoDup forms).
Proof.
  intros forms. subst forms. rewrite extract_inline_eq. cbn [snd].
  pose proof (selectors_of_page url s meta (form_configs c)) as Hsub.
  split_and!.
  - done.
  - apply sublist_length in Hsub. by rewrite length_map in Hsub.
  - apply Forall_forall. intros fd Hfd.
    apply elem_of_extracted in Hfd as (? & ? & ? & ? & _ & _ & _ & _ & _ & ->).
    done.
  - intros Hdup. assert (NoDup (map form_selector
        (flat_map (forms_for_config select_one url s meta) (form_configs c)))) as Hsel
      by (by eapply sublist_NoDup).
    split; [done|]. by eapply NoDup_map_inv.
Qed.

Lemma omap_nil_inv {A B} (f : A → option B) (l : list A) :
  omap f l = [] → ∀ x, x ∈ l → f x = None.
Proof.
  induction l as [|y l IH]; intros Hnil x Hx; [by apply elem_of_nil in Hx|].
  simpl in Hnil. destruct (f y) eqn:Hy; [done|].
  apply elem_of_cons in Hx as [->|Hx]; [done|]. by apply IH.
Qed.

Lemma collect_fields_nil_inv form :
  collect_fields form = [] → only_hidden_or_submit form.
Proof.
  unfold collect_fields, only_hidden_or_submit. intros Hnil t Ht.
  pose proof (omap_nil_inv _ _ Hnil t Ht) as Hrec.
  unfold find_all in Ht. apply list_elem_of_filter in Ht as [Hname _].
  unfold field_record in Hrec. case_bool_decide as Hty; [done|].
  assert (excluded_type
            (if String.eqb (tag_name t) "input" then get t "type" "text" else tag_name t))
    as Hex.
  { unfold excluded_type.
    apply elem_of_cons in Hty as [?|Hty]; [by left|].
    apply list_elem_of_singleton in Hty. by right. }
  destruct (String.eqb_spec (tag_name t) "input") as [Hin|Hin]; [done|].
  exfalso. unfold excluded_type in Hex.
  apply elem_of_cons in Hname as [?|Hname]; [done|].
  apply elem_of_cons in Hname as [Heq|Hname].
  - rewrite Heq in Hex. by destruct Hex.
  - apply list_elem_of_singleton in Hname. rewrite Hname in Hex. by destruct Hex.
Qed.

(** X4: a form matched by a selector of an applied entry gives its
    record exactly when one of its controls is not an input of type
    [hidden] or [submit]; a [textarea] or a [select] always counts,
    whatever its attributes. *)
Theorem record_iff_visible_control (c : WebCrawler) (url : string) (s : soup)
    (meta : meta_info) (path : string) (config : form_config) (selector : string)
    (form : tag) :
  (path, config) ∈ form_configs c →
  selector ∈ config_selectors config →
  entry_applies path url = true →
  select_one s selector = Some form →
  (make_form_data url form selector config (collect_fields form) meta
     ∈ (extract_inline select_one url s meta c).2
   ↔ ¬ only_hidden_or_submit form)
  ∧ (collect_fields form = [] ↔ only_hidden_or_submit form).
Proof.
  intros Hin Hsel Happ Hone.
  assert (collect_fields form = [] ↔ only_hidden_or_submit form) as Hiff.
  { split; [apply collect_fields_nil_inv|apply collect_fields_only_hidden]. }
  split; [|done]. rewrite extract_inline_eq. cbn [snd]. rewrite elem_of_extracted. split.
  - intros (? & ? & ? & form' & _ & _ & _ & _ & Hne & Heq) Honly.
    apply (f_equal form_fields) in Heq. simpl in Heq.
    apply Hne. rewrite <- Heq. by apply Hiff.
  - intros Hvis. exists path, config, selector, form. split_and!; try done.
    intros Hnil. by apply Hvis, Hiff.
Qed.

End PageRecords.

Lemma X3_witness :
  let forms := (extract_inline Demo.select_one "http://site.test" Demo.root_soup
                  (Demo.no_meta "http://site.test")
                  (Demo.crawler "http://site.test" 5 500)).2 in
  NoDup (map form_selector forms) ∧ NoDup forms.
Proof.
  apply (records_follow_catalog Demo.select_one (Demo.crawler "http://site.test" 5 500)
           "http://site.test" Demo.root_soup (Demo.no_meta "http://site.test")).
  by_computation.
Defined.

Lemma X4_witness :
  Demo.contact_record
  ∈ (extract_inline Demo.select_one "http://site.test/contact-us" Demo.contact_soup
       (Demo.no_meta "http://site.test/contact-us")
       (Demo.crawler "http://site.test" 5 500)).2
  ↔ ¬ only_hidden_or_submit Demo.contact_form.
Proof.
  apply (record_iff_visible_control Demo.select_one (Demo.crawler "http://site.test" 5 500)
           "http://site.test/contact-us" Demo.contact_soup
           (Demo.no_meta "http://site.test/contact-us")
           "contact-us" {| config_name := "Contact Form";
                           config_selectors := ["form.contact-form"] |}
           "form.contact-form" Demo.contact_form).
  - by_computation.
  - by_computation.
  - vm_compute. reflexivity.
  - vm_compute. reflexivity.
Defined.

(** ** The report *)

Lemma str_take_length (n : nat) (s : string) :
  String.length (Py.str_take n s) = Nat.min n (String.length s).
Proof.
  revert s. induction n as [|n IH]; intros [|ch s]; simpl; try done.
  by rewrite IH.
Qed.

Lemma str_take_prefix (n : nat) (s : string) :
  Py.startswith s (Py.str_take n s) = true.
Proof.
  revert s. induction n as [|n IH]; intros [|ch s]; simpl; try done.
  by rewrite Ascii.eqb_refl.
Qed.

Lemma csv_row_length (form : form_data) : length (csv_row form) = 11%nat.
Proof. done. Qed.

(** X5: [save_forms_to_csv] writes nothing exactly when no form was
    found.  Otherwise it writes the header and then one row for each
    form found, in the order of [forms_found]; every row has the eleven
    cells of the header, and the cells of the meta description and of
    the meta keywords hold the first 200 characters of these texts, or
    all of them when there are fewer. *)
Theorem csv_rows_shape (c : WebCrawler) :
  (save_forms_to_csv c = None ↔ forms_found c = [])
  ∧ ∀ rows, save_forms_to_csv c = Some rows →
      length rows = S (length (forms_found c))
      ∧ rows !! 0%nat = Some csv_header
      ∧ Forall (fun row => length row = length csv_header) rows
      ∧ ∀ (i : nat) form, forms_found c !! i = Some form →
          ∃ row description keywords,
            rows !! S i = Some row
            ∧ row !! 0%nat = Some (form_id form)
            ∧ row !! 7%nat = Some description
            ∧ row !! 9%nat = Some keywords
            ∧ Py.startswith (meta_description (form_meta_info form)) description = true
            ∧ String.length description
              = Nat.min 200 (String.length (meta_description (form_meta_info form)))
            ∧ Py.startswith (meta_keywords (form_meta_info form)) keywords = true
            ∧ String.length keywords
              = Nat.min 200 (String.length (meta_keywords (form_meta_info form))).
Proof.
  unfold save_forms_to_csv. split.
  - by destruct (forms_found c).
  - intros rows Hrows.
    assert (rows = csv_header :: (csv_row <$> forms_found c)) as ->.
    { destruct (forms_found c); [done|]. by injection Hrows as <-. }
    clear Hrows. split_and!.
    + simpl. by rewrite length_fmap.
    + done.
    + constructor; [done|]. apply Forall_fmap, Forall_forall. by intros form _.
    + intros i form Hform. exists (csv_row form). eexists _, _.
      split_and!; [|reflexivity..| | | | ].
      * simpl. by rewrite list_lookup_fmap, Hform.
      * apply str_take_prefix.
      * apply str_take_length.
      * apply str_take_prefix.
      * apply str_take_length.
Qed.

Lemma X5_witness :
  let c := Demo.final (Demo.run Demo.in_order 10 5 500) in
  ∃ rows, save_forms_to_csv c = Some rows
          ∧ length rows = 4%nat
          ∧ Forall (fun row => length row = length csv_header) rows.
Proof.
  intros c.
  destruct (save_forms_to_csv c) as [rows|] eqn:Hrows; [|vm_compute in Hrows; discriminate].
  exists rows. split; [done|].
  destruct (proj2 (csv_rows_shape c) rows Hrows) as (Hlen & _ & Hcells & _).
  split; [|done]. rewrite Hlen. vm_compute. reflexivity.
Defined.

(** ** Links *)

Lemma contains_app_r (needle a b : string) :
  Py.contains needle b = true → Py.contains needle (a +:+ b) = true.
Proof.
  intros Hb. induction a as [|ch a IH]; [done|].
  change (String ch a +:+ b) with (String ch (a +:+ b)).
  cbn [Py.contains]. rewrite IH. apply orb_true_r.
Qed.

Lemma lower_app (a b : string) : Py.lower (a +:+ b) = Py.lower a +:+ Py.lower b.
Proof.
  induction a as [|ch a IH]; [done|].
  change (String ch a +:+ b) with (String ch (a +:+ b)). simpl. by rewrite IH.
Qed.

(** A normalised URL has a slash, the one of [://] at the latest. *)
Lemma normalized_has_slash (url u : string) :
  _normalize_url url = Some u → Py.contains "/" (Py.lower u) = true.
Proof.
  unfold _normalize_url. destruct (UrlParse.urlparse url) as [parsed|]; [|done].
  simpl. intros [= <-]. rewrite lower_app. by apply contains_app_r.
Qed.

Section Links.

Variable urljoin : string -> string -> option string.

(** What one anchor does, with the link it comes from. *)
Lemma consider_link_admits url c new_urls link :
  consider_link urljoin url (c, new_urls) link = (c, new_urls) ∨
  ∃ full_url u,
    urljoin url (get link "href" "") = Some full_url
    ∧ _normalize_url full_url = Some u
    ∧ Py.startswith u (base_url c) = true
    ∧ _should_crawl_url c full_url = Some true
    ∧ (u ∉ all_urls c)
    ∧ consider_link urljoin url (c, new_urls) link
      = (set_all_urls ({[u]} ∪ all_urls c) c,
         if is_form_related c u then u :: new_urls else new_urls ++ [u]).
Proof.
  unfold consider_link.
  destruct (negb (truthy (get link "href" "")) || _ || _); [by left|].
  destruct (urljoin url (get link "href" "")) as [full_url|]; [|by left].
  destruct (_normalize_url full_url) as [u|] eqn:Hnorm; [|by left].
  destruct (Py.startswith u (base_url c)) eqn:Hbase; simpl; [|by left].
  destruct (_should_crawl_url c full_url) as [[]|] eqn:Hok; simpl; [|by left..].
  case_bool_decide as Hnew; [|by left].
  right. by exists full_url, u.
Qed.

(** X6: when [/] is a key of the catalog, as it is in the catalog of
    [__init__], the test for form-related URLs holds for every
    normalised URL.  So every link that is admitted goes to the front of
    the list of new URLs of its page: a page returns its new URLs in the
    reverse of the order in which it found them, and none is ever
    appended. *)
Theorem every_link_goes_to_the_front (c : WebCrawler) (url : string)
    (new_urls : list string) (link : tag) :
  "/" ∈ (form_configs c).*1 →
  (∀ full_url u, _normalize_url full_url = Some u → is_form_related c u = true)
  ∧ (consider_link urljoin url (c, new_urls) link = (c, new_urls)
     ∨ ∃ u, (u ∉ all_urls c)
            ∧ consider_link urljoin url (c, new_urls) link
              = (set_all_urls ({[u]} ∪ all_urls c) c, u :: new_urls)).
Proof.
  intros Hkey.
  assert (∀ full_url u, _normalize_url full_url = Some u → is_form_related c u = true)
    as Hrelated.
  { intros full_url u Hnorm. unfold is_form_related. apply existsb_exists.
    exists "/". split; [by apply list_elem_of_In|]. by eapply normalized_has_slash. }
  split; [done|].
  destruct (consider_link_admits url c new_urls link)
    as [?|(full_url & u & _ & Hnorm & _ & _ & Hnew & Heq)]; [by left|].
  right. exists u. split; [done|]. by rewrite Heq, (Hrelated _ _ Hnorm).
Qed.

End Links.

Lemma X6_witness :
  let c := Demo.crawler "http://site.test" 5 500 in
  is_form_related c "http://site.test/about" = true.
Proof.
  intros c.
  apply (proj1 (every_link_goes_to_the_front Demo.urljoin c "http://site.test" []
                  (Demo.a "http://site.test/about") ltac:(by_computation))
           "http://site.test/about/").
  vm_compute. reflexivity.
Defined.


(** ** The books of the frontier *)

Lemma slice_app {A} (n : Z) (l : list A) : Py.slice_to n l ++ Py.slice_from n l = l.
Proof. unfold Py.slice_to, Py.slice_from. destruct (0 <=? n); apply take_drop. Qed.

Section Accounting.

Variable BeautifulSoup : string -> option soup.
Variable select_one : soup -> string -> option tag.
Variable urljoin : string -> string -> option string.
Variable fetch : string -> fetch_outcome.
Variable elapsed : nat -> Z.
Variable completion : nat -> list nat.

Local Abbreviation iteration :=
  (crawl_iteration BeautifulSoup select_one urljoin fetch completion).
Local Abbreviation loop :=
  (crawl_loop BeautifulSoup select_one urljoin fetch elapsed completion).
Local Abbreviation run_crawl :=
  (crawl BeautifulSoup select_one urljoin fetch elapsed completion).

(** One turn of the loop, field by field. *)
Lemma iteration_fields n c :
  ∃ links added,
    NoDup links ∧ (∀ u, u ∈ links → u ∉ all_urls c) ∧ added ⊆+ links
    ∧ all_urls (iteration n c) = list_to_set links ∪ all_urls c
    ∧ queue (iteration n c) = Py.slice_from (batch_size c) (queue c) ++ added
    ∧ visited (iteration n c) = visited c ∪ list_to_set added
    ∧ enqueued (iteration n c) = enqueued c ++ added
    ∧ fetched (iteration n c) ≡ₚ fetched c ++ Py.slice_to (batch_size c) (queue c)
    ∧ max_pages (iteration n c) = max_pages c
    ∧ batch_size (iteration n c) = batch_size c
    ∧ timeout_minutes (iteration n c) = timeout_minutes c
    ∧ base_url (iteration n c) = base_url c
    ∧ form_configs (iteration n c) = form_configs c.
Proof.
  destruct (crawl_iteration_summary BeautifulSoup select_one urljoin fetch completion n c)
    as (c2 & links & added & Heff & Hsub & ->).
  destruct Heff. exists links, added. simpl. split_and!; try done.
  rewrite eff_fetched0.
  by rewrite (proj2 (completion_order_perm completion n _)).
Qed.

Lemma accounted_iteration n c : accounted c → accounted (iteration n c).
Proof.
  intros (Hperm & Hdup & Hvis & Hknown).
  destruct (iteration_fields n c)
    as (links & added & Hlinks & Hfresh & Hsub & Hall & Hq & Hv & He & Hf & _).
  unfold accounted. rewrite Hall, Hq, Hv, He, Hf. split_and!.
  - rewrite <- app_assoc, (app_assoc (Py.slice_to _ _)), slice_app, app_assoc.
    by rewrite Hperm.
  - apply NoDup_app. split_and!; [done| |by eapply submseteq_NoDup].
    intros u Hu Hadd. apply (Hfresh u); [by eapply elem_of_submseteq|].
    apply Hknown. rewrite Hvis. by apply elem_of_list_to_set.
  - by rewrite Hvis, list_to_set_app_L.
  - intros u [Hu|Hu]%elem_of_union.
    + apply elem_of_union_r. by apply Hknown.
    + apply elem_of_union_l, elem_of_list_to_set.
      apply elem_of_list_to_set in Hu. by eapply elem_of_submseteq.
Qed.

Lemma accounted_start c : fresh c → accounted (crawl_start c).
Proof.
  intros (Hv & Ha & Hf & _). unfold accounted. simpl. rewrite Hv, Ha, Hf. split_and!.
  - done.
  - apply NoDup_singleton.
  - set_solver.
  - done.
Qed.

Lemma accounted_size c :
  accounted c → size (visited c) = (length (fetched c) + length (queue c))%nat.
Proof.
  intros (Hperm & Hdup & Hvis & _).
  rewrite Hvis, size_list_to_set by done. by rewrite <- Hperm, length_app.
Qed.

(** A property kept by every turn that the loop takes holds when the
    loop ends. *)
Lemma crawl_loop_guarded (P : WebCrawler → Prop) :
  (∀ n c, P c → queue c ≠ [] → _should_stop_crawling elapsed n c = None →
          P (iteration n c)) →
  ∀ fuel n c r c', P c → loop fuel n c = Some (r, c') → P c'.
Proof.
  intros Hstep. induction fuel as [|fuel IH]; intros n c r c' HP; simpl; [done|].
  destruct (queue c) eqn:Hq; [by intros [= _ <-]|].
  destruct (_should_stop_crawling elapsed n c) eqn:Hstop; [by intros [= _ <-]|].
  apply IH. apply Hstep; [done| |done]. by rewrite Hq.
Qed.

(** How the loop ends: with an empty queue, or at the page limit, or,
    below the page limit, at the timeout. *)
Lemma crawl_loop_end fuel : forall n c r c',
  loop fuel n c = Some (r, c') →
  match r with
  | Completed => queue c' = []
  | PageLimitReached => queue c' ≠ [] ∧ max_pages c' ≤ Z.of_nat (size (visited c'))
  | TimedOut =>
      queue c' ≠ [] ∧ Z.of_nat (size (visited c')) < max_pages c'
      ∧ ∃ k, timeout_minutes c' * 60000000 ≤ elapsed k
  end.
Proof.
  induction fuel as [|fuel IH]; intros n c r c'; simpl; [done|].
  destruct (queue c) eqn:Hq; [by intros [= <- <-]|].
  unfold _should_stop_crawling.
  destruct (Z.leb_spec (max_pages c) (Z.of_nat (size (visited c)))).
  { intros [= <- <-]. by rewrite Hq. }
  destruct (Z.leb_spec (timeout_minutes c * 60000000) (elapsed n)).
  { intros [= <- <-]. rewrite Hq. split_and!; [done..|by exists n]. }
  apply IH.
Qed.

(** X7: in a crawl from a fresh crawler no URL is requested twice.  The
    URLs put on the queue are the ones requested and the ones still
    waiting; [visited] holds exactly these, so its size is the number of
    requests plus the length of the queue.  When the crawl ends with
    [Completed], every URL put on the queue was requested once. *)
Theorem requests_accounted (fuel : nat) (c : WebCrawler) (r : terminal)
    (c' : WebCrawler) :
  fresh c →
  run_crawl fuel c = Some (r, c') →
  NoDup (fetched c')
  ∧ fetched c' ++ queue c' ≡ₚ enqueued c'
  ∧ visited c' = list_to_set (fetched c' ++ queue c')
  ∧ size (visited c') = (length (fetched c') + length (queue c'))%nat
  ∧ (r = Completed → fetched c' ≡ₚ enqueued c').
Proof.
  intros Hfresh Hrun.
  assert (accounted c') as Hacc.
  { by apply (crawl_loop_invariant BeautifulSoup select_one urljoin fetch elapsed completion
                accounted accounted_iteration fuel 0%nat (crawl_start c) r c'
                (accounted_start c Hfresh)). }
  pose proof (accounted_size c' Hacc) as Hsize.
  destruct Hacc as (Hperm & Hdup & Hvis & _). split_and!; try done.
  - rewrite <- Hperm in Hdup. by apply NoDup_app in Hdup as (? & _).
  - rewrite Hvis. apply set_eq. intros u. rewrite !elem_of_list_to_set. by rewrite Hperm.
  - intros ->. apply crawl_loop_end in Hrun. by rewrite Hrun, app_nil_r in Hperm.
Qed.

Lemma slice_to_length_le {A} (n : Z) (l : list A) :
  (length (Py.slice_to n l) ≤ length l)%nat.
Proof. rewrite <- (slice_app n l) at 2. rewrite length_app. lia. Qed.

Lemma stop_none n c :
  _should_stop_crawling elapsed n c = None →
  Z.of_nat (size (visited c)) < max_pages c ∧ elapsed n < timeout_minutes c * 60000000.
Proof.
  unfold _should_stop_crawling.
  destruct (Z.leb_spec (max_pages c) (Z.of_nat (size (visited c)))); [done|].
  by destruct (Z.leb_spec (timeout_minutes c * 60000000) (elapsed n)).
Qed.

(** X8: a crawl from a fresh crawler ends with fewer requests than
    [max_pages]: a turn is taken only while [visited], which counts the
    waiting URLs too, is below the limit. *)
Theorem requests_below_page_limit (fuel : nat) (c : WebCrawler) (r : terminal)
    (c' : WebCrawler) :
  fresh c →
  run_crawl fuel c = Some (r, c') →
  fetched c' = [] ∨ Z.of_nat (length (fetched c')) < max_pages c.
Proof.
  intros Hfresh Hrun.
  pose (P := fun c1 : WebCrawler =>
               accounted c1 ∧ max_pages c1 = max_pages c
               ∧ (fetched c1 = [] ∨ Z.of_nat (length (fetched c1)) < max_pages c)).
  assert (P c') as (_ & _ & Hend); [|done].
  apply (crawl_loop_guarded P) with fuel 0%nat (crawl_start c) r; [| |done].
  - intros n c1 (Hacc & Hmax & _) Hq [Hlimit _]%stop_none.
    destruct (iteration_fields n c1)
      as (_ & _ & _ & _ & _ & _ & _ & _ & _ & Hf & Hmax' & _).
    split_and!; [by apply accounted_iteration|congruence|]. right.
    rewrite Hf, length_app.
    pose proof (slice_to_length_le (batch_size c1) (queue c1)).
    rewrite (accounted_size c1 Hacc) in Hlimit. lia.
  - split_and!; [by apply accounted_start|done|].
    left. simpl. by destruct Hfresh as (_ & _ & ? & _).
Qed.

Lemma loop_terminates fuel : forall n c,
  accounted c → 1 ≤ batch_size c → (1 ≤ fuel)%nat →
  max_pages c - Z.of_nat (length (fetched c)) ≤ Z.of_nat fuel →
  ∃ r c', loop fuel n c = Some (r, c').
Proof.
  induction fuel as [|fuel IH]; intros n c Hacc Hbatch Hfuel Hmax; [lia|]. simpl.
  destruct (queue c) as [|u rest] eqn:Hq; [by eexists _, _|].
  destruct (_should_stop_crawling elapsed n c) eqn:Hstop; [by eexists _, _|].
  apply stop_none in Hstop as [Hlimit _].
  rewrite (accounted_size c Hacc), Hq in Hlimit. simpl in Hlimit.
  destruct (iteration_fields n c)
    as (_ & _ & _ & _ & _ & _ & _ & _ & _ & Hf & Hmax' & Hbatch' & _).
  assert (1 ≤ length (Py.slice_to (batch_size c) (queue c)))%nat as Htake.
  { unfold Py.slice_to. destruct (Z.leb_spec 0 (batch_size c)); [|lia].
    rewrite length_take, Hq. simpl. lia. }
  apply IH.
  - by apply accounted_iteration.
  - by rewrite Hbatch'.
  - lia.
  - rewrite Hmax', Hf, length_app. lia.
Qed.

(** X9: with a batch size of at least one, a crawl from a fresh crawler
    ends within [max_pages] turns of the loop (one turn when [max_pages]
    is smaller), whatever the site, the clock and the order in which the
    requests complete. *)
Theorem crawl_terminates (fuel : nat) (c : WebCrawler) :
  fresh c → 1 ≤ batch_size c → (1 ≤ fuel)%nat → max_pages c ≤ Z.of_nat fuel →
  ∃ r c', run_crawl fuel c = Some (r, c').
Proof.
  intros Hfresh Hbatch Hfuel Hmax. apply loop_terminates; try done.
  - by apply accounted_start.
  - simpl. lia.
Qed.

Lemma iteration_idle n c :
  Py.slice_to (batch_size c) (queue c) = [] → iteration n c = c.
Proof.
  intros Hnil. pose proof (slice_app (batch_size c) (queue c)) as Hfrom.
  rewrite Hnil in Hfrom. simpl in Hfrom.
  unfold crawl_iteration, gather. rewrite Hnil, Hfrom. simpl. by destruct c.
Qed.



End Accounting.

Lemma demo_crawler_fresh (base : string) (batch maxp : Z) : fresh (Demo.crawler base batch maxp).
Proof.
  unfold fresh, Demo.crawler, __init__.
  destruct (_normalize_url base); simpl; split_and!; reflexivity.
Qed.

Lemma X7_witness :
  let c' := Demo.final (Demo.run Demo.second_first 10 5 500) in
  NoDup (fetched c')
  ∧ size (visited c') = (length (fetched c') + length (queue c'))%nat.
Proof.
  intros c'.
  destruct (requests_accounted (Demo.parse Demo.docs) Demo.select_one Demo.urljoin
              (Demo.fetch Demo.pages) (fun _ => 0) Demo.second_first 10
              (Demo.crawler "http://Site.test/" 5 500) Completed c')
    as (H1 & _ & _ & H2 & _).
  - apply demo_crawler_fresh.
  - vm_compute. reflexivity.
  - by split.
Defined.

Lemma X8_witness :
  let c' := Demo.final (Demo.run Demo.in_order 10 5 2) in
  fetched c' = [] ∨ Z.of_nat (length (fetched c')) < 2.
Proof.
  intros c'.
  apply (requests_below_page_limit (Demo.parse Demo.docs) Demo.select_one Demo.urljoin
           (Demo.fetch Demo.pages) (fun _ => 0) Demo.in_order 10
           (Demo.crawler "http://Site.test/" 5 2) PageLimitReached c').
  - apply demo_crawler_fresh.
  - vm_compute. reflexivity.
Defined.

Lemma X9_witness :
  ∃ r c', Demo.run Demo.second_first 3 1 3 = Some (r, c').
Proof.
  apply (crawl_terminates (Demo.parse Demo.docs) Demo.select_one Demo.urljoin
           (Demo.fetch Demo.pages) (fun _ => 0) Demo.second_first 3
           (Demo.crawler "http://Site.test/" 1 3)).
  - apply demo_crawler_fresh.
  - vm_compute. discriminate.
  - lia.
  - vm_compute. discriminate.
Defined.



(** ** The forms of the report *)

Lemma fold_append_new_elem (new : list form_data) : forall acc fd,
  fd ∈ fold_left append_new new acc ↔ fd ∈ acc ∨ fd ∈ new.
Proof.
  induction new as [|x new IH]; intros acc fd; simpl.
  - rewrite elem_of_nil. naive_solver.
  - rewrite IH, elem_of_cons. unfold append_new. case_bool_decide as Hx.
    + rewrite elem_of_app, list_elem_of_singleton. naive_solver.
    + split; [naive_solver|]. intros [?|[->|?]]; [by left| |by right].
      left. by destruct (decide (x ∈ acc)).
Qed.

Lemma fold_append_new_NoDup (new : list form_data) : forall acc,
  NoDup acc → NoDup (fold_left append_new new acc).
Proof.
  induction new as [|x new IH]; intros acc Hdup; simpl; [done|].
  apply IH. unfold append_new. case_bool_decide as Hx; [|done].
  apply NoDup_app. split_and!; [done| |apply NoDup_singleton].
  intros y Hy ->%list_elem_of_singleton. done.
Qed.

Lemma fold_append_new_prefix (new : list form_data) : forall acc,
  acc `prefix_of` fold_left append_new new acc.
Proof.
  induction new as [|x new IH]; intros acc; simpl; [done|].
  etrans; [|apply IH]. unfold append_new. case_bool_decide; [|done].
  by apply prefix_app_r.
Qed.

Section Report.

Variable BeautifulSoup : string -> option soup.
Variable select_one : soup -> string -> option tag.
Variable urljoin : string -> string -> option string.
Variable fetch : string -> fetch_outcome.
Variable elapsed : nat -> Z.
Variable completion : nat -> list nat.

Local Abbreviation iteration :=
  (crawl_iteration BeautifulSoup select_one urljoin fetch completion).
Local Abbreviation run_crawl :=
  (crawl BeautifulSoup select_one urljoin fetch elapsed completion).

Lemma report_grows_iteration n c :
  forms_found c `prefix_of` forms_found (iteration n c)
  ∧ produced c `prefix_of` produced (iteration n c).
Proof.
  destruct (crawl_iteration_summary BeautifulSoup select_one urljoin fetch completion n c)
    as (c2 & links & added & Heff & _ & ->).
  destruct Heff. simpl. rewrite eff_forms_found0, eff_produced0. split.
  - apply fold_append_new_prefix.
  - by apply prefix_app_r.
Qed.

(** X12: the report holds every record that was built, each once, and
    only grows: what was in [forms_found] before the crawl is still
    there, at the same place, when the crawl ends. *)
Theorem report_has_each_record_once (fuel : nat) (c : WebCrawler) (r : terminal)
    (c' : WebCrawler) :
  report_in_production_order c →
  run_crawl fuel c = Some (r, c') →
  NoDup (forms_found c')
  ∧ (∀ fd, fd ∈ forms_found c' ↔ fd ∈ produced c')
  ∧ forms_found c `prefix_of` forms_found c'
  ∧ produced c `prefix_of` produced c'.
Proof.
  intros Hrep Hrun.
  assert (report_in_production_order c') as Hend.
  { apply (crawl_loop_invariant BeautifulSoup select_one urljoin fetch elapsed completion
             report_in_production_order
             (report_order_iteration BeautifulSoup select_one urljoin fetch completion)
             fuel 0%nat (crawl_start c) r c'); [|done].
    unfold report_in_production_order. by simpl. }
  assert (forms_found c `prefix_of` forms_found c'
          ∧ produced c `prefix_of` produced c') as [Hff Hpr].
  { apply (crawl_loop_invariant BeautifulSoup select_one urljoin fetch elapsed completion
             (fun c1 => forms_found c `prefix_of` forms_found c1
                        ∧ produced c `prefix_of` produced c1))
      with fuel 0%nat (crawl_start c) r; [|done|done].
    intros n c1 [H1 H2]. destruct (report_grows_iteration n c1). split; by etrans. }
  unfold report_in_production_order, first_occurrences in Hend. split_and!; try done.
  - rewrite Hend. apply fold_append_new_NoDup. constructor.
  - intros fd. rewrite Hend, fold_append_new_elem, elem_of_nil. naive_solver.
Qed.

End Report.

Lemma X12_witness :
  let c' := Demo.final (Demo.run Demo.in_order 10 5 500) in
  NoDup (forms_found c') ∧ (∀ fd, fd ∈ forms_found c' ↔ fd ∈ produced c').
Proof.
  intros c'.
  destruct (report_has_each_record_once (Demo.parse Demo.docs) Demo.select_one Demo.urljoin
              (Demo.fetch Demo.pages) (fun _ => 0) Demo.in_order 10
              (Demo.crawler "http://Site.test/" 5 500) Completed c')
    as (H1 & H2 & _).
  - vm_compute. reflexivity.
  - vm_compute. reflexivity.
  - by split.
Defined.


(** ** Where the known URLs come from *)

Lemma should_crawl_url_any (c c' : WebCrawler) (url : string) :
  _should_crawl_url c url = _should_crawl_url c' url.
Proof.
  unfold _should_crawl_url. destruct (UrlParse.urlparse url) as [parsed|]; [|done].
  cbn [mbind option_bind].
  destruct (existsb _ skipped_extensions); [done|].
  destruct (existsb _ skipped_patterns); [done|].
  by do 2 destruct (existsb _ _).
Qed.

Lemma admitted_link_any (c c' : WebCrawler) (u : string) :
  base_url c' = base_url c → admitted_link c' u → admitted_link c u.
Proof.
  intros Hbase [Hstart (full_url & Hnorm & Hok)]. split; [congruence|].
  exists full_url. split; [done|]. by rewrite (should_crawl_url_any c c').
Qed.

Lemma known_from_refl c : known_from c c.
Proof. split; [done|]. intros u ?. by left. Qed.

Lemma known_from_trans c c1 c2 : known_from c c1 → known_from c1 c2 → known_from c c2.
Proof.
  intros [Hb1 Hk1] [Hb2 Hk2]. split; [congruence|].
  intros u [Hu|Hu]%Hk2; [by apply Hk1|]. right. by eapply admitted_link_any.
Qed.

Lemma known_from_same c c' :
  base_url c' = base_url c → all_urls c' = all_urls c → known_from c c'.
Proof. intros Hb Ha. split; [done|]. rewrite Ha. intros u ?. by left. Qed.

Section Known.

Variable BeautifulSoup : string -> option soup.
Variable select_one : soup -> string -> option tag.
Variable urljoin : string -> string -> option string.
Variable fetch : string -> fetch_outcome.
Variable elapsed : nat -> Z.
Variable completion : nat -> list nat.

Local Abbreviation iteration :=
  (crawl_iteration BeautifulSoup select_one urljoin fetch completion).
Local Abbreviation run_crawl :=
  (crawl BeautifulSoup select_one urljoin fetch elapsed completion).

Lemma known_from_consider_link url c new_urls link :
  known_from c (consider_link urljoin url (c, new_urls) link).1.
Proof.
  destruct (consider_link_admits urljoin url c new_urls link)
    as [->|(full_url & u & _ & Hnorm & Hstart & Hok & _ & ->)];
    [apply known_from_refl|].
  split; [done|]. simpl. intros v [->%elem_of_singleton|?]%elem_of_union; [|by left].
  right. split; [done|]. by exists full_url.
Qed.

Lemma known_from_links url links : forall c new_urls,
  known_from c (fold_left (consider_link urljoin url) links (c, new_urls)).1.
Proof.
  induction links as [|link links IH]; intros c new_urls; cbn [fold_left];
    [apply known_from_refl|].
  pose proof (known_from_consider_link url c new_urls link) as Hstep.
  destruct (consider_link urljoin url (c, new_urls) link) as [c1 new_urls1].
  eapply known_from_trans; [exact Hstep|apply IH].
Qed.

Lemma known_from_process_url c url :
  known_from c (_process_url BeautifulSoup select_one urljoin fetch c url).1.
Proof.
  unfold _process_url, process_url_body. cbn zeta.
  destruct (fetch url) as [|status text]; [by apply known_from_same|].
  destruct (negb (status =? 200)); [by apply known_from_same|].
  destruct text as [html|]; [|by apply known_from_same].
  destruct (BeautifulSoup html) as [s|]; [|by apply known_from_same].
  rewrite extract_inline_eq.
  pose proof (known_from_links url (find_anchors s)
                (record_forms
                   (flat_map (forms_for_config select_one url s (_extract_meta_info s url))
                             (form_configs (set_fetched (fetched c ++ [url]) c)))
                   (set_fetched (fetched c ++ [url]) c)) []) as [Hb Hk].
  destruct (fold_left _ _ _) as [c2 new_urls]. simpl in *.
  split; [done|]. intros u [Hu|Hu]%Hk; [by left|].
  right. by eapply admitted_link_any; [|exact Hu].
Qed.

Lemma known_from_tasks order : forall c finished,
  known_from c
    (fold_left (run_task BeautifulSoup select_one urljoin fetch) order (c, finished)).1.
Proof.
  induction order as [|task order IH]; intros c finished; cbn [fold_left];
    [apply known_from_refl|].
  pose proof (known_from_process_url c task.2) as Hstep.
  unfold run_task at 2.
  destruct (_process_url BeautifulSoup select_one urljoin fetch c task.2) as [c1 new_urls].
  eapply known_from_trans; [exact Hstep|apply IH].
Qed.

Lemma fold_add_new_urls_known results : forall c,
  base_url (fold_left add_new_urls results c) = base_url c
  ∧ all_urls (fold_left add_new_urls results c) = all_urls c.
Proof.
  intros c.
  destruct (fold_add_new_urls BeautifulSoup urljoin fetch results c) as (added & _ & ->).
  done.
Qed.

Lemma known_from_iteration n c : known_from c (iteration n c).
Proof.
  unfold crawl_iteration, gather. cbn zeta.
  set (c1 := set_queue (Py.slice_from (batch_size c) (queue c)) c).
  pose proof (known_from_tasks
                (resume_order
                   (length (zip (seq 0 (length (Py.slice_to (batch_size c) (queue c))))
                                (Py.slice_to (batch_size c) (queue c))))
                   (completion n)
                   (zip (seq 0 (length (Py.slice_to (batch_size c) (queue c))))
                        (Py.slice_to (batch_size c) (queue c))))
                c1 []) as [Hb Hk].
  destruct (fold_left _ _ (c1, [])) as [c2 finished]. subst c1. simpl in Hb, Hk.
  destruct (fold_add_new_urls_known
              (map (fun i => result_of i finished)
                   (seq 0 (length (Py.slice_to (batch_size c) (queue c))))) c2)
    as [Hb' Ha'].
  split; [by rewrite Hb', Hb|]. rewrite Ha'. intros u [Hu|Hu]%Hk; [by left|].
  right. by eapply admitted_link_any; [|exact Hu].
Qed.

(** X13: in a crawl from a fresh crawler every URL that is requested or
    waiting is the base URL or the normalised form of a link target
    that starts with the base URL as a string and that the crawl filter
    accepts. *)
Theorem requests_stay_on_site (fuel : nat) (c : WebCrawler) (r : terminal)
    (c' : WebCrawler) :
  fresh c →
  run_crawl fuel c = Some (r, c') →
  ∀ u, u ∈ fetched c' ∨ u ∈ queue c' → u = base_url c ∨ admitted_link c u.
Proof.
  intros Hfresh Hrun.
  pose (P := fun c1 : WebCrawler =>
               accounted c1 ∧ base_url c1 = base_url c
               ∧ ∀ u, u ∈ all_urls c1 → u = base_url c ∨ admitted_link c u).
  assert (P c') as ((Hperm & _ & Hvis & Hknown) & _ & Hall).
  { apply (crawl_loop_invariant BeautifulSoup select_one urljoin fetch elapsed completion P)
      with fuel 0%nat (crawl_start c) r; [| |done].
    - intros n c1 (Hacc & Hbase & Hall). destruct (known_from_iteration n c1) as [Hb Hk].
      split_and!; [by apply accounted_iteration|congruence|].
      intros u [Hu|Hu]%Hk; [by apply Hall|]. right. by eapply admitted_link_any.
    - split_and!; [by apply accounted_start|done|].
      simpl. destruct Hfresh as (_ & -> & _). intros u. left. set_solver. }
  intros u Hu. apply Hall, Hknown. rewrite Hvis. apply elem_of_list_to_set.
  rewrite <- Hperm. by apply elem_of_app.
Qed.

End Known.

Lemma X13_witness :
  let c := Demo.crawler "http://Site.test/" 5 500 in
  "http://site.test/about" = base_url c ∨ admitted_link c "http://site.test/about".
Proof.
  intros c.
  apply (requests_stay_on_site (Demo.parse Demo.docs) Demo.select_one Demo.urljoin
           (Demo.fetch Demo.pages) (fun _ => 0) Demo.in_order 10 c Completed
           (Demo.final (Demo.run Demo.in_order 10 5 500))).
  - apply demo_crawler_fresh.
  - vm_compute. reflexivity.
  - left. by_computation.
Defined.

(** ** The two sets of the frontier *)

Lemma result_of_found (finished : list (nat * list string)) (j : nat) (r : list string) :
  NoDup finished.*1 → (j, r) ∈ finished → result_of j finished = r.
Proof.
  induction finished as [|[i r'] rest IH]; intros Hdup Hin; [by apply elem_of_nil in Hin|].
  cbn [fmap list_fmap fst] in Hdup. apply NoDup_cons in Hdup as [Hi Hdup].
  simpl. apply elem_of_cons in Hin as [[= -> ->]|Hin].
  - by rewrite bool_decide_eq_true_2.
  - rewrite bool_decide_eq_false_2; [by apply IH|].
    intros ->. apply Hi. apply list_elem_of_fmap. by exists (i, r).
Qed.

Section Coincide.

Variable BeautifulSoup : string -> option soup.
Variable select_one : soup -> string -> option tag.
Variable urljoin : string -> string -> option string.
Variable fetch : string -> fetch_outcome.
Variable elapsed : nat -> Z.
Variable completion : nat -> list nat.

Local Abbreviation iteration :=
  (crawl_iteration BeautifulSoup select_one urljoin fetch completion).
Local Abbreviation run_crawl :=
  (crawl BeautifulSoup select_one urljoin fetch elapsed completion).
Local Abbreviation gather_batch :=
  (gather BeautifulSoup select_one urljoin fetch completion).

Lemma fold_run_task_indices order : forall c finished,
  (fold_left (run_task BeautifulSoup select_one urljoin fetch) order (c, finished)).2.*1
  = finished.*1 ++ order.*1.
Proof.
  induction order as [|task order IH]; intros c finished; cbn [fold_left].
  - by rewrite app_nil_r.
  - unfold run_task at 2.
    destruct (_process_url BeautifulSoup select_one urljoin fetch c task.2) as [c1 new_urls].
    rewrite IH, fmap_app, <- app_assoc. done.
Qed.

(** Every URL that a batch adds to [all_urls] is in one of the results
    that [gather] hands back. *)
Lemma gather_covers n c current_batch u :
  u ∈ all_urls (gather_batch n c current_batch).1 →
  u ∈ all_urls c ∨ u ∈ concat (gather_batch n c current_batch).2.
Proof.
  pose proof (completion_order_perm completion n current_batch) as [Hindices _].
  unfold gather, completion_order in *. cbn zeta in *.
  set (order := resume_order _ _ _) in *.
  destruct (fold_run_task BeautifulSoup select_one urljoin fetch order c [])
    as (later & Hfin & Heff).
  pose proof (fold_run_task_indices order c []) as Hidx.
  destruct (fold_left _ _ _) as [c' finished]. simpl in *. subst finished.
  destruct Heff. rewrite eff_all_urls0.
  intros [Hu|Hu]%elem_of_union; [|by left]. right.
  apply elem_of_list_to_set, list_elem_of_In, in_concat in Hu as (r & Hr & Hu).
  apply list_elem_of_In, list_elem_of_fmap in Hr as ([j r'] & -> & Hjr). simpl in Hu.
  apply list_elem_of_In, in_concat. exists r'. split; [|done].
  assert (NoDup later.*1) as Hdup by (rewrite Hidx, Hindices; apply NoDup_seq).
  rewrite <- (result_of_found later j r' Hdup Hjr).
  apply (in_map (fun i => result_of i later)), list_elem_of_In.
  rewrite <- Hindices, <- Hidx. apply list_elem_of_fmap. by exists (j, r').
Qed.

Lemma fold_add_new_urls_visited results : forall c,
  (∀ u, u ∈ visited c → u ∈ visited (fold_left add_new_urls results c))
  ∧ (∀ u, u ∈ concat results → u ∈ visited (fold_left add_new_urls results c)).
Proof.
  induction results as [|new_urls results IH]; intros c; cbn [fold_left concat].
  - split; [done|]. intros u Hu. by apply elem_of_nil in Hu.
  - destruct (IH (add_new_urls c new_urls)) as [Hold Hnew].
    assert (∀ u, u ∈ visited c ∨ u ∈ new_urls → u ∈ visited (add_new_urls c new_urls))
      as Hstep.
    { intros u Hu. simpl. apply elem_of_union.
      destruct (decide (u ∈ visited c)); [by left|]. right.
      apply elem_of_list_to_set, list_elem_of_filter. naive_solver. }
    split.
    + intros u Hu. apply Hold, Hstep. by left.
    + intros u [Hu|Hu]%elem_of_app; [|by apply Hnew]. apply Hold, Hstep. by right.
Qed.

Lemma known_visited_iteration n c :
  (∀ u, u ∈ all_urls c → u ∈ visited c) →
  ∀ u, u ∈ all_urls (iteration n c) → u ∈ visited (iteration n c).
Proof.
  intros Hknown u. unfold crawl_iteration. cbn zeta.
  set (c1 := set_queue (Py.slice_from (batch_size c) (queue c)) c).
  pose proof (gather_covers n c1 (Py.slice_to (batch_size c) (queue c)) u) as Hcover.
  destruct (gather_effect BeautifulSoup select_one urljoin fetch completion n c1
              (Py.slice_to (batch_size c) (queue c))) as (links & [] & _).
  destruct (gather_batch n c1 _) as [c2 results]. simpl in *.
  destruct (fold_add_new_urls_known BeautifulSoup urljoin fetch results c2) as [_ ->].
  destruct (fold_add_new_urls_visited results c2) as [Hold Hnew].
  intros [Hu|Hu]%Hcover; [|by apply Hnew].
  apply Hold. rewrite eff_visited0. by apply Hknown.
Qed.

(** X14: in a crawl from a fresh crawler [visited] and [all_urls] hold
    the same URLs whenever the loop tests its condition, and so when the
    crawl ends: every URL that a page admits to [all_urls] is put on the
    queue and into [visited] at the end of its batch. *)
Theorem visited_is_all_urls (fuel : nat) (c : WebCrawler) (r : terminal) (c' : WebCrawler) :
  fresh c →
  run_crawl fuel c = Some (r, c') →
  visited c' = all_urls c'.
Proof.
  intros Hfresh Hrun.
  pose (P := fun c1 : WebCrawler => accounted c1 ∧ ∀ u, u ∈ all_urls c1 → u ∈ visited c1).
  assert (P c') as ((_ & _ & _ & Hsub) & Hsup).
  { apply (crawl_loop_invariant BeautifulSoup select_one urljoin fetch elapsed completion P)
      with fuel 0%nat (crawl_start c) r; [| |done].
    - intros n c1 [Hacc Hknown].
      split; [by apply accounted_iteration|by apply known_visited_iteration].
    - split; [by apply accounted_start|].
      simpl. destruct Hfresh as (-> & -> & _). done. }
  apply set_eq. intros u. split; [apply Hsub|apply Hsup].
Qed.

End Coincide.

Lemma X14_witness :
  let c' := Demo.final (Demo.run Demo.second_first 10 5 2) in
  visited c' = all_urls c'.
Proof.
  intros c'.
  apply (visited_is_all_urls (Demo.parse Demo.docs) Demo.select_one Demo.urljoin
           (Demo.fetch Demo.pages) (fun _ => 0) Demo.second_first 10
           (Demo.crawler "http://Site.test/" 5 2) PageLimitReached c').
  - apply demo_crawler_fresh.
  - vm_compute. reflexivity.
Defined.


(** ** Parsing and normalising absolute URLs *)

Lemma string_app_cons (ch : ascii) (a b : string) :
  String ch a +:+ b = String ch (a +:+ b).
Proof. done. Qed.

Lemma string_app_assoc (a b c : string) : (a +:+ b) +:+ c = a +:+ b +:+ c.
Proof. induction a as [|ch a IH]; [done|]. by rewrite !string_app_cons, IH. Qed.

Lemma string_app_nil_r (a : string) : a +:+ "" = a.
Proof. induction a as [|ch a IH]; [done|]. by rewrite string_app_cons, IH. Qed.

Lemma all_chars_app (p : ascii -> bool) (a b : string) :
  UrlParse.all_chars p (a +:+ b) = UrlParse.all_chars p a && UrlParse.all_chars p b.
Proof.
  induction a as [|ch a IH]; [done|]. rewrite string_app_cons. simpl.
  by rewrite IH, andb_assoc.
Qed.

Lemma all_chars_impl (p q : ascii -> bool) (a : string) :
  (∀ ch, p ch = true → q ch = true) →
  UrlParse.all_chars p a = true → UrlParse.all_chars q a = true.
Proof.
  intros Hpq. induction a as [|ch a IH]; [done|]. simpl.
  intros [Hch Ha]%andb_true_iff. by rewrite (Hpq _ Hch), IH.
Qed.

Lemma remove_chars_app (p : ascii -> bool) (a b : string) :
  UrlParse.remove_chars p (a +:+ b)
  = UrlParse.remove_chars p a +:+ UrlParse.remove_chars p b.
Proof.
  induction a as [|ch a IH]; [done|]. rewrite string_app_cons. simpl.
  destruct (p ch); [done|]. by rewrite string_app_cons, IH.
Qed.

Lemma remove_chars_id (p : ascii -> bool) (a : string) :
  UrlParse.all_chars (fun ch => negb (p ch)) a = true → UrlParse.remove_chars p a = a.
Proof.
  induction a as [|ch a IH]; [done|]. simpl.
  intros [Hch Ha]%andb_true_iff. apply negb_true_iff in Hch. by rewrite Hch, IH.
Qed.

(** Cutting at the first character that satisfies [p], when the text
    before it has none. *)
Lemma split_at_app (p : ascii -> bool) (a x : string) :
  UrlParse.all_chars (fun ch => negb (p ch)) a = true →
  UrlParse.split_at p (a +:+ x)
  = (a +:+ (UrlParse.split_at p x).1, (UrlParse.split_at p x).2).
Proof.
  induction a as [|ch a IH].
  - intros _.
    change (UrlParse.split_at p x = ((UrlParse.split_at p x).1, (UrlParse.split_at p x).2)).
    by destruct (UrlParse.split_at p x).
  - rewrite string_app_cons. simpl.
    intros [Hch Ha]%andb_true_iff. apply negb_true_iff in Hch. by rewrite Hch, IH.
Qed.

Lemma span_until_app (p : ascii -> bool) (a x : string) :
  UrlParse.all_chars (fun ch => negb (p ch)) a = true →
  match x with String ch _ => p ch | EmptyString => true end = true →
  UrlParse.span_until p (a +:+ x) = (a, x).
Proof.
  intros Ha Hx. induction a as [|ch a IH].
  - change ("" +:+ x) with x. destruct x as [|ch x]; [done|]. simpl. by rewrite Hx.
  - rewrite string_app_cons. simpl. simpl in Ha.
    apply andb_true_iff in Ha as [Hch Ha]. apply negb_true_iff in Hch.
    by rewrite Hch, IH.
Qed.

Lemma contains_char_false (ch : ascii) (p : ascii -> bool) (a : string) :
  p ch = false → UrlParse.all_chars p a = true → Py.contains (String ch "") a = false.
Proof.
  intros Hch. induction a as [|b a IH]; [done|]. simpl.
  intros [Hb Ha]%andb_true_iff. rewrite (IH Ha), orb_false_r.
  destruct (Ascii.eqb_spec ch b) as [->|]; [congruence|done].
Qed.

Ltac by_cases_on_char :=
  intros [[] [] [] [] [] [] [] []]; vm_compute; first [done | by intros].

Lemma alpha_not_stripped : ∀ ch, UrlParse.is_alpha ch = true → UrlParse.is_c0_or_space ch = false.
Proof. by_cases_on_char. Qed.
Lemma scheme_char_safe :
  ∀ ch, UrlParse.is_scheme_char ch = true → negb (UrlParse.is_unsafe ch) = true.
Proof. by_cases_on_char. Qed.
Lemma scheme_char_no_colon :
  ∀ ch, UrlParse.is_scheme_char ch = true → negb (Ascii.eqb ch ":") = true.
Proof. by_cases_on_char. Qed.
Lemma host_char_safe : ∀ ch, host_char ch = true → negb (UrlParse.is_unsafe ch) = true.
Proof. by_cases_on_char. Qed.
Lemma host_char_no_delimiter :
  ∀ ch, host_char ch = true → negb (Py.mem_char ch "/?#") = true.
Proof. by_cases_on_char. Qed.
Lemma path_char_safe : ∀ ch, path_char ch = true → negb (UrlParse.is_unsafe ch) = true.
Proof. by_cases_on_char. Qed.
Lemma path_char_no_hash : ∀ ch, path_char ch = true → negb (Ascii.eqb ch "#") = true.
Proof. by_cases_on_char. Qed.
Lemma path_char_no_question : ∀ ch, path_char ch = true → negb (Ascii.eqb ch "?") = true.
Proof. by_cases_on_char. Qed.
Lemma rest_char_cases :
  ∀ ch, Py.mem_char ch "?#" = true →
        UrlParse.is_unsafe ch = false ∧ Py.mem_char ch "/?#" = true
        ∧ (Ascii.eqb ch "#" = true ∨ (Ascii.eqb ch "#" = false ∧ Ascii.eqb ch "?" = true)).
Proof.
  intros [[] [] [] [] [] [] [] []]; vm_compute; intros; try done;
    split_and!; try done; first [by left | by right].
Qed.

Lemma wf_path_chars (p : string) : wf_path p = true → UrlParse.all_chars path_char p = true.
Proof. destruct p as [|ch p]; [done|]. simpl. by intros [_ ?]%andb_true_iff. Qed.

Lemma wf_rest_removed (rest : string) :
  wf_rest rest = true → wf_rest (UrlParse.remove_chars UrlParse.is_unsafe rest) = true.
Proof.
  destruct rest as [|ch rest]; [done|]. simpl. intros Hch.
  destruct (rest_char_cases ch Hch) as (-> & _ & _). done.
Qed.

Lemma rest_has_no_path (rest : string) :
  wf_rest rest = true →
  (UrlParse.split_at (fun ch => Ascii.eqb ch "?")
     (UrlParse.split_at (fun ch => Ascii.eqb ch "#") rest).1).1 = "".
Proof.
  destruct rest as [|ch rest]; [done|]. simpl. intros Hch.
  destruct (rest_char_cases ch Hch) as (_ & _ & [->|[-> Hq]]); [done|].
  destruct (UrlParse.split_at _ rest). simpl. by rewrite Hq.
Qed.
